(** * Data-RAG-ChatBot: the chat loop of [chatbot.py] and the bootstrap of
    [database.py], embedded as pure functions over an explicit world.

    The world is what the two scripts act on: a PostgreSQL server (its
    databases, the [chat_history] table, its sequence, indexes and
    trigger), the terminal, and the hosted completion model.  Everything
    the scripts cannot decide themselves (what the user types, what the
    model answers, whether a database call raises, the server clock) is an
    input of the run. *)

From Stdlib Require Import ZArith NArith Ascii String List.
From stdpp Require Import base tactics option list strings gmap.

Local Open Scope string_scope.

(** ** Python [str] operations used by the chat loop

    A [string] is read as a Python [str] whose code points are below
    U+0100, one [ascii] per code point. *)
Module Py.

(** [str.isspace] on one code point below U+0100: TAB..CR, FS..US, SPACE,
    NEL (U+0085) and NBSP (U+00A0). *)
Definition isspace (c : ascii) : bool :=
  let n := N_of_ascii c in
  ((9 <=? n) && (n <=? 13) || (28 <=? n) && (n <=? 31)
   || (n =? 32) || (n =? 133) || (n =? 160))%N.

Fixpoint lstrip (s : string) : string :=
  match s with
  | EmptyString => EmptyString
  | String c s' => if isspace c then lstrip s' else s
  end.

Fixpoint rstrip (s : string) : string :=
  match s with
  | EmptyString => EmptyString
  | String c s' =>
      match rstrip s' with
      | EmptyString => if isspace c then EmptyString else String c EmptyString
      | r => String c r
      end
  end.

(** [str.strip()] with no argument. *)
Definition strip (s : string) : string := rstrip (lstrip s).

(** [str.lower] on one code point below U+0100: A..Z and the Latin-1
    capitals U+00C0..U+00DE (the multiplication sign U+00D7 apart) move
    up by 32, every other code point stays. *)
Definition lower_char (c : ascii) : ascii :=
  let n := N_of_ascii c in
  if ((65 <=? n) && (n <=? 90)
      || (192 <=? n) && (n <=? 222) && negb (n =? 215))%N
  then ascii_of_N (n + 32) else c.

Fixpoint lower (s : string) : string :=
  match s with
  | EmptyString => EmptyString
  | String c s' => String (lower_char c) (lower s')
  end.

(** Truthiness of an optional string ([None] and [""] are falsy). *)
Definition truthy (o : option string) : bool :=
  match o with
  | Some (String _ _) => true
  | _ => false
  end.

End Py.

(** ** JSON documents, as [json.dumps] hands them to the JSONB column *)
#[warnings="-register-all"] Inductive json : Type :=
| JString (s : string)
| JArray (items : list json)
| JObject (fields : list (string * json)).

(** ** LangChain messages kept by [ConversationBufferMemory] *)
Inductive Message : Type :=
| HumanMessage (content : string)
| AIMessage (content : string).

(** [msg.type]: the class constant of [HumanMessage] and [AIMessage]. *)
Definition msg_type (m : Message) : string :=
  match m with
  | HumanMessage _ => "human"
  | AIMessage _ => "ai"
  end.

Definition msg_content (m : Message) : string :=
  match m with
  | HumanMessage c => c
  | AIMessage c => c
  end.

(** ** Exceptions and results

    [exn] stands for the subclasses of Python's [Exception] that the two
    scripts meet.  [SystemExit], which [exit(1)] raises and which
    [except Exception] does not catch, is the separate result [Exit]. *)
Inductive exn : Type :=
| ValueError (msg : string)
| OperationalError (msg : string)
| ProgrammingError (msg : string)
| DataError (msg : string)
| RemoteError (msg : string).

Inductive result (A : Type) : Type :=
| Ok (a : A)
| Raise (e : exn)
| Exit (status : Z).
Arguments Ok {A} a.
Arguments Raise {A} e.
Arguments Exit {A} status.

(** ** The PostgreSQL server *)

(** One row of [chat_history], column by column. *)
Record row : Type := Row {
  row_id : N;
  conversation_id : string;
  user_id : string;
  created_at : Z;
  messages : json;
  updated_at : Z
}.

(** The relation together with the sequence behind its SERIAL column. *)
Record table : Type := Table {
  rows : list row;
  id_seq : N
}.

(** What [create_chat_table] reads and writes in one database. *)
Record database : Type := Database {
  chat_history : option table;
  indexes : gset string;
  update_updated_at_column : bool;
  update_chat_history_updated_at : bool
}.

(** The server: its databases by name, and the database libpq attaches a
    session to when the connection parameters name none (it depends on the
    user parameter). *)
Record server : Type := Server {
  databases : gmap string database;
  default_database : option string -> string
}.

(** The database calls of the scripts; a run says which of them raise. *)
Inductive call : Type :=
| Connect
| Select
| Execute
| Commit
| Close.

Definition faults : Type := call -> option exn.

Definition no_fault : faults := fun _ => None.

(** What the scripts write to the terminal, one constructor per [print]
    (and the prompt of [input]). *)
Inductive output : Type :=
| DatabaseCreated
| DatabaseAlreadyExists
| ErrorCreatingDatabase (e : exn)
| HintCreatedb
| TableVerified
| ErrorCreatingTable (e : exn)
| HintRunning
| ChatStarted
| Prompt
| Assistant (content : string)
| Goodbye
| ErrorSaving (e : exn).

(** The interactions of the process with the outside, in order. *)
Inductive effect : Type :=
| Print (o : output)
| LlmInvoke (history : list Message)
| PgConnect (dbname : string).

(** The state of the process and of what it acts on. *)
Record world : Type := World {
  srv : server;
  chat_memory : list Message;
  trace : list effect
}.

(** ** A state-and-exception monad for the scripts *)
Definition prog (A : Type) : Type := world -> result A * world.

Definition ret {A} (a : A) : prog A := fun w => (Ok a, w).

Definition bind {A B} (m : prog A) (k : A -> prog B) : prog B :=
  fun w =>
    match m w with
    | (Ok a, w') => k a w'
    | (Raise e, w') => (Raise e, w')
    | (Exit c, w') => (Exit c, w')
    end.

Definition raise {A} (e : exn) : prog A := fun w => (Raise e, w).

(** [exit(status)]. *)
Definition sys_exit {A} (status : Z) : prog A := fun w => (Exit status, w).

(** [try: body  except Exception as e: handler e]. *)
Definition try_except {A} (body : prog A) (handler : exn -> prog A) : prog A :=
  fun w =>
    match body w with
    | (Raise e, w') => handler e w'
    | r => r
    end.

Notation "'let*' x := m 'in' k" := (bind m (fun x => k))
  (at level 10, x name, m at level 100, k at level 200).
Notation "m >> k" := (bind m (fun _ => k))
  (at level 100, k at level 200, right associativity).

Definition get : prog world := fun w => (Ok w, w).

Definition emit (e : effect) : prog unit :=
  fun w => (Ok tt, World (srv w) (chat_memory w) (trace w ++ [e])).

Definition print (o : output) : prog unit := emit (Print o).

Definition put_database (name : string) (d : database) : prog unit :=
  fun w =>
    (Ok tt,
     World (Server (<[name := d]> (databases (srv w))) (default_database (srv w)))
           (chat_memory w) (trace w)).

Definition put_memory (ms : list Message) : prog unit :=
  fun w => (Ok tt, World (srv w) ms (trace w)).

(** An external call raises when the run says so. *)
Definition external (f : faults) (c : call) : prog unit :=
  match f c with
  | Some e => raise e
  | None => ret tt
  end.

Definition read_database (name : string) : prog database :=
  let* w := get in
  match databases (srv w) !! name with
  | Some d => ret d
  | None => raise (OperationalError "database does not exist")
  end.

(** ** psycopg2 *)

(** Connection parameters, as [DB_CONFIG] holds them ([None] for an
    environment variable that is not set). *)
Record db_config : Type := DbConfig {
  dbname : option string;
  user : option string;
  password : option string;
  host : option string;
  port : option string
}.

(** The database a session with these parameters is attached to. *)
Definition session_database (s : server) (cfg : db_config) : string :=
  if Py.truthy (dbname cfg) then default "" (dbname cfg)
  else default_database s (user cfg).

(** [psycopg2.connect] on the unpacked parameters: the database has to
    exist; the connection is its name.  Whether the server is reached and
    lets the session in (host, port, password, and what libpq takes from
    its own PG* variables where a parameter is missing) is not decided
    here: a refusal is the fault [Connect] of the run, and the database
    libpq falls back to is [default_database] of the server. *)
Definition connect (f : faults) (cfg : db_config) : prog string :=
  let* w := get in
  let name := session_database (srv w) cfg in
  emit (PgConnect name) >>
  external f Connect >>
  let* _ := read_database name in
  ret name.

(** SQL statements act on one database and may be rejected. *)
Definition statement : Type := database -> exn + database.

Fixpoint run_script (script : list statement) (d : database) : exn + database :=
  match script with
  | [] => inr d
  | st :: script' =>
      match st d with
      | inr d' => run_script script' d'
      | inl e => inl e
      end
  end.

(** Sequences are not transactional: a value that a statement drew from
    the sequence of an existing table is gone at once, whether or not the
    transaction commits.  [draw_sequence d pending] is [d] with the
    sequence where the statements left it. *)
Definition draw_sequence (d pending : database) : database :=
  match chat_history d, chat_history pending with
  | Some t, Some t' =>
      Database (Some (Table (rows t) (id_seq t'))) (indexes d)
               (update_updated_at_column d) (update_chat_history_updated_at d)
  | _, _ => d
  end.

(** [cursor.execute(script)] inside the session's transaction: the result
    is pending until [commit], except for the values drawn from the
    sequence. *)
Definition execute (f : faults) (conn : string) (script : list statement)
  : prog database :=
  external f Execute >>
  let* d := read_database conn in
  match run_script script d with
  | inr d' => put_database conn (draw_sequence d d') >> ret d'
  | inl e => raise e
  end.

(** [conn.commit()]: the pending state becomes the database. *)
Definition commit (f : faults) (conn : string) (pending : database) : prog unit :=
  external f Commit >> put_database conn pending.

(** [cursor.close(); conn.close()]. *)
Definition close (f : faults) : prog unit := external f Close.

(** ** database.py *)
Module DatabaseManager.

(** A database as [CREATE DATABASE] leaves it. *)
Definition new_database : database := Database None ∅ false false.

(** [CREATE DATABASE name], in autocommit mode. *)
Definition create_database (f : faults) (name : string) : prog unit :=
  external f Execute >> put_database name new_database.

(** [admin_config]: a copy of the parameters whose database name is
    [os.getenv("DB_USER", "postgres")]. *)
Definition admin_config (environ : gmap string string) (self : db_config)
  : db_config :=
  DbConfig (Some (default "postgres" (environ !! "DB_USER")))
           (user self) (password self) (host self) (port self).

(** The [try] block of [create_database_if_not_exists]. *)
Definition create_database_try
    (environ : gmap string string) (f : faults) (self : db_config) : prog unit :=
  let target_db_name := dbname self in
  (if negb (Py.truthy target_db_name)
   then raise (ValueError "DB_NAME is not set in environment variables")
   else ret tt) >>
  let target := default "" target_db_name in
  let* conn := connect f (admin_config environ self) in
  external f Select >>
  let* w := get in
  let exists_ := bool_decide (is_Some (databases (srv w) !! target)) in
  (if negb exists_
   then create_database f target >> print DatabaseCreated
   else print DatabaseAlreadyExists) >>
  close f.

Definition create_database_if_not_exists
    (environ : gmap string string) (f : faults) (self : db_config) : prog unit :=
  try_except
    (create_database_try environ f self)
    (fun e =>
       print (ErrorCreatingDatabase e) >> print HintCreatedb >> sys_exit 1).

(** The statements of [create_table_sql], one definition each.  Creating
    the table creates the indexes behind PRIMARY KEY (id) and UNIQUE
    (conversation_id) with it. *)
Definition create_table_if_not_exists : statement := fun d =>
  match chat_history d with
  | Some _ => inr d
  | None =>
      inr (Database (Some (Table [] 0))
                   ({["chat_history_pkey"; "chat_history_conversation_id_key"]}
                    ∪ indexes d)
                   (update_updated_at_column d)
                   (update_chat_history_updated_at d))
  end.

Definition create_index_if_not_exists (name : string) : statement := fun d =>
  match chat_history d with
  | None => inl (ProgrammingError "relation chat_history does not exist")
  | Some _ =>
      inr (Database (chat_history d) ({[name]} ∪ indexes d)
                   (update_updated_at_column d)
                   (update_chat_history_updated_at d))
  end.

Definition create_or_replace_function : statement := fun d =>
  inr (Database (chat_history d) (indexes d) true
               (update_chat_history_updated_at d)).

Definition drop_trigger_if_exists : statement := fun d =>
  match chat_history d with
  | None => inl (ProgrammingError "relation chat_history does not exist")
  | Some _ =>
      inr (Database (chat_history d) (indexes d)
                   (update_updated_at_column d) false)
  end.

Definition create_trigger : statement := fun d =>
  match chat_history d with
  | None => inl (ProgrammingError "relation chat_history does not exist")
  | Some _ =>
      if update_chat_history_updated_at d
      then inl (ProgrammingError "trigger already exists")
      else if update_updated_at_column d
      then inr (Database (chat_history d) (indexes d) true true)
      else inl (ProgrammingError "function does not exist")
  end.

Definition create_table_sql : list statement :=
  [ create_table_if_not_exists;
    create_index_if_not_exists "idx_chat_history_conversation_id";
    create_index_if_not_exists "idx_chat_history_user_id";
    create_index_if_not_exists "idx_chat_history_created_at";
    create_or_replace_function;
    drop_trigger_if_exists;
    create_trigger ].

(** The [try] block of [create_chat_table]. *)
Definition create_chat_table_try (f : faults) (self : db_config) : prog unit :=
  let* conn := connect f self in
  let* pending := execute f conn create_table_sql in
  commit f conn pending >>
  close f >>
  print TableVerified.

Definition create_chat_table (f : faults) (self : db_config) : prog unit :=
  try_except
    (create_chat_table_try f self)
    (fun e =>
       print (ErrorCreatingTable e) >> print HintRunning >> sys_exit 1).

End DatabaseManager.

(** ** chatbot.py *)
Module Chatbot.

Definition DB_CONFIG (environ : gmap string string) : db_config :=
  DbConfig (environ !! "DB_NAME") (environ !! "DB_USER")
           (environ !! "DB_PASSWORD") (environ !! "DB_HOST")
           (environ !! "DB_PORT").

Definition USER_ID : string := "abc".

(** What the outside contributes to one pass of the chat loop: the line
    typed, what [llm.invoke] does, which database calls raise, and the
    server's CURRENT_TIMESTAMP for the transaction. *)
Inductive completion : Type :=
| Reply (content : string)
| Fails (e : exn).

Record turn : Type := Turn {
  user_input : string;
  llm : completion;
  pg : faults;
  now : Z
}.

(** [memory.chat_memory.add_user_message] / [add_ai_message]. *)
Definition add_user_message (text : string) : prog unit :=
  let* w := get in put_memory (chat_memory w ++ [HumanMessage text]).

Definition add_ai_message (text : string) : prog unit :=
  let* w := get in put_memory (chat_memory w ++ [AIMessage text]).

Definition user_node (t : turn) : prog unit :=
  add_user_message (user_input t).

Definition llm_invoke (t : turn) : prog string :=
  let* w := get in
  emit (LlmInvoke (chat_memory w)) >>
  match llm t with
  | Reply content => ret content
  | Fails e => raise e
  end.

Definition assistant_node (t : turn) : prog unit :=
  let* response := llm_invoke t in
  add_ai_message response >>
  print (Assistant response).

(** [graph.invoke]: the edge user -> assistant -> END.  The graph state it
    returns is not read by the loop. *)
Definition graph_invoke (t : turn) : prog unit :=
  user_node t >> assistant_node t.

Definition format_message (msg : Message) : json :=
  JObject [("role", JString (msg_type msg)); ("content", JString (msg_content msg))].

(** [json.dumps(formatted_messages)]. *)
Definition formatted_messages (ms : list Message) : json :=
  JArray (map format_message ms).

Definition conflicts (cid : string) (r : row) : bool :=
  bool_decide (conversation_id r = cid).

(** The BEFORE UPDATE trigger [update_chat_history_updated_at], when it
    is installed. *)
Definition before_update (d : database) (current_timestamp : Z) (new : row) : row :=
  if update_chat_history_updated_at d
  then Row (row_id new) (conversation_id new) (user_id new) (created_at new)
           (messages new) current_timestamp
  else new.

(** SET messages = EXCLUDED.messages *)
Definition do_update (d : database) (current_timestamp : Z) (excluded : json)
    (r : row) : row :=
  before_update d current_timestamp
    (Row (row_id r) (conversation_id r) (user_id r) (created_at r)
         excluded (updated_at r)).

(** What the statement is refused for.  psycopg2 adapts no string
    parameter with the code point U+0000; JSONB takes no string with
    U+0000; the two VARCHAR(255) columns take 255 characters; the sequence
    of the SERIAL column ends at the largest 32-bit integer. *)
Fixpoint has_nul (s : string) : bool :=
  match s with
  | EmptyString => false
  | String c s' => (N_of_ascii c =? 0)%N || has_nul s'
  end.

Fixpoint jsonb_accepts (j : json) : bool :=
  match j with
  | JString s => negb (has_nul s)
  | JArray l => forallb jsonb_accepts l
  | JObject fs =>
      forallb (fun kv => match kv with
                         | (k, v) => negb (has_nul k) && jsonb_accepts v
                         end) fs
  end.

Definition varchar_255 (s : string) : bool :=
  (String.length s <=? 255)%nat.

Definition serial_max : N := 2147483647.

(** INSERT INTO chat_history ... ON CONFLICT (conversation_id) DO UPDATE.
    The SERIAL default draws from the sequence before the conflict is
    seen; [updated_at] of a new row is its DEFAULT CURRENT_TIMESTAMP. *)
Definition insert_on_conflict (cid uid : string) (created : Z) (msgs : json)
    (current_timestamp : Z) : statement := fun d =>
  if has_nul cid || has_nul uid
  then inl (ValueError "a string literal cannot contain NUL characters")
  else
  match chat_history d with
  | None => inl (ProgrammingError "relation chat_history does not exist")
  | Some t =>
      if negb (jsonb_accepts msgs)
      then inl (DataError "unsupported Unicode escape sequence")
      else if negb (varchar_255 cid && varchar_255 uid)
      then inl (DataError "value too long for type character varying(255)")
      else if (serial_max <=? id_seq t)%N
      then inl (DataError "nextval: reached maximum value of sequence")
      else
        let next := N.succ (id_seq t) in
        let rows' :=
          if existsb (conflicts cid) (rows t)
          then map (fun r => if conflicts cid r
                             then do_update d current_timestamp msgs r
                             else r) (rows t)
          else (rows t ++ [Row next cid uid created msgs current_timestamp])%list in
        inr (Database (Some (Table rows' next)) (indexes d)
                     (update_updated_at_column d)
                     (update_chat_history_updated_at d))
  end.

(** The body of the [try] of the chat loop. *)
Definition persist (environ : gmap string string) (conversation_id : string)
    (created_at : Z) (t : turn) (formatted : json) : prog unit :=
  let* conn := connect (pg t) (DB_CONFIG environ) in
  let* pending :=
    execute (pg t) conn
      [insert_on_conflict conversation_id USER_ID created_at formatted (now t)] in
  commit (pg t) conn pending >>
  close (pg t).

Definition is_sentinel (line : string) : bool :=
  bool_decide (Py.lower (Py.strip line) ∈ ["exit"; "quit"]).

Inductive status : Type :=
| AwaitingInput
| Terminated.

(** One pass of the loop body after the sentinel check. *)
Definition chat_turn (environ : gmap string string) (conversation_id : string)
    (created_at : Z) (t : turn) : prog unit :=
  graph_invoke t >>
  let* w := get in
  let formatted := formatted_messages (chat_memory w) in
  try_except
    (persist environ conversation_id created_at t formatted)
    (fun e => print (ErrorSaving e)).

(** [while True: ...] over the lines the user types; with no line left
    the process is blocked in [input]. *)
Fixpoint chat_loop (environ : gmap string string) (conversation_id : string)
    (created_at : Z) (turns : list turn) : prog status :=
  print Prompt >>
  match turns with
  | [] => ret AwaitingInput
  | t :: turns' =>
      if is_sentinel (user_input t)
      then print Goodbye >> ret Terminated
      else chat_turn environ conversation_id created_at t >>
           chat_loop environ conversation_id created_at turns'
  end.

(** The module body: bootstrap, banner, loop. *)
Definition main (environ : gmap string string) (conversation_id : string)
    (created_at : Z) (boot1 boot2 : faults) (turns : list turn) : prog status :=
  let db_manager := DB_CONFIG environ in
  DatabaseManager.create_database_if_not_exists environ boot1 db_manager >>
  DatabaseManager.create_chat_table boot2 db_manager >>
  print ChatStarted >>
  chat_loop environ conversation_id created_at turns.

(** The exit status of the process, once it has ended. *)
Definition exit_status (r : result status) : option Z :=
  match r with
  | Ok AwaitingInput => None
  | Ok Terminated => Some 0%Z
  | Raise _ => Some 1%Z
  | Exit c => Some c
  end.

End Chatbot.

(** ** What the claims observe *)
Import Chatbot.

(** SELECT * FROM chat_history WHERE conversation_id = cid. *)
Definition select_row (cid : string) (d : database) : option row :=
  t ← chat_history d; find (conflicts cid) (rows t).

(** A message list made of whole turns: user message, then reply. *)
Fixpoint whole_turns (ms : list Message) : bool :=
  match ms with
  | [] => true
  | HumanMessage _ :: AIMessage _ :: rest => whole_turns rest
  | _ => false
  end.

(** The row of conversation [cid] in database [n] of the server. *)
Definition row_at (n cid : string) (s : server) : option row :=
  d ← databases s !! n; select_row cid d.

(** The row of the run, in the database the chat loop writes to. *)
Definition persisted (environ : gmap string string) (cid : string) (w : world)
  : option row :=
  row_at (session_database (srv w) (DB_CONFIG environ)) cid (srv w).

(** What the loop keeps true of the row of the run: it carries the user id
    of the script, and its document is the serialization of a prefix of the
    message list that is made of whole turns. *)
Definition row_invariant (environ : gmap string string) (cid : string) (w : world)
  : Prop :=
  forall r,
    persisted environ cid w = Some r ->
    user_id r = USER_ID /\
    exists ms,
      messages r = formatted_messages ms /\
      ms `prefix_of` chat_memory w /\
      whole_turns ms = true.

(** The schema and trigger of [create_chat_table] are in place. *)
Definition schema_installed (d : database) : bool :=
  bool_decide (is_Some (chat_history d))
  && update_updated_at_column d && update_chat_history_updated_at d.

(** How the [try] of the loop ends on turn [t] taken in world [w]. *)
Definition persist_result (environ : gmap string string) (cid : string)
    (created : Z) (t : turn) (w : world) : result unit :=
  let w1 := snd (graph_invoke t w) in
  fst (persist environ cid created t (formatted_messages (chat_memory w1)) w1).

(** Turns of a run whose reply arrived, and turns whose completion raised;
    the loop stops at the first sentinel line and at the first exception
    that leaves [graph.invoke]. *)
Fixpoint completed_turns (turns : list turn) : nat :=
  match turns with
  | [] => 0
  | t :: turns' =>
      if is_sentinel (user_input t) then 0
      else match llm t with
           | Reply _ => S (completed_turns turns')
           | Fails _ => 0
           end
  end.

Fixpoint aborted_turns (turns : list turn) : nat :=
  match turns with
  | [] => 0
  | t :: turns' =>
      if is_sentinel (user_input t) then 0
      else match llm t with
           | Reply _ => aborted_turns turns'
           | Fails _ => 1
           end
  end.

(** The items of a JSON array and the role of a serialized message. *)
Definition items (doc : json) : list json :=
  match doc with
  | JArray l => l
  | _ => []
  end.

Definition role_of (j : json) : option string :=
  match j with
  | JObject (("role", JString r) :: _) => Some r
  | _ => None
  end.

(** The upsert of turn [t] went through between [w] and [w']: the
    database of the session is replaced by what the statement made of it. *)
Definition written (environ : gmap string string) (cid : string) (created : Z)
    (t : turn) (doc : json) (w w' : world) : Prop :=
  exists d d',
    databases (srv w) !! session_database (srv w) (DB_CONFIG environ) = Some d /\
    insert_on_conflict cid USER_ID created doc (now t) d = inr d' /\
    databases (srv w') =
      <[session_database (srv w) (DB_CONFIG environ) := d']> (databases (srv w)).

(** A string of whitespace only. *)
Fixpoint all_space (s : string) : bool :=
  match s with
  | EmptyString => true
  | String c s' => Py.isspace c && all_space s'
  end.

(** The world once the prompt of [input] is on the terminal. *)
Definition prompted (w : world) : world :=
  World (srv w) (chat_memory w) (trace w ++ [Print Prompt]).

(** What the bootstrap may change between [w] and [w']: databases, schema
    and terminal, but no message and no row of any conversation. *)
Definition bootstrapped (w w' : world) : Prop :=
  chat_memory w' = chat_memory w /\
  default_database (srv w') = default_database (srv w) /\
  forall n c, row_at n c (srv w') = row_at n c (srv w).

(** ** A small run to evaluate the definitions on

    DB_NAME and DB_USER are set; the server has the administrative
    database of that user and nothing else. *)
Definition demo_environ : gmap string string :=
  {[ "DB_NAME" := "chat"; "DB_USER" := "bob" ]}.

Definition demo_world : world :=
  World (Server {[ "bob" := DatabaseManager.new_database ]} (fun _ => "bob")) [] [].

Definition hello_turn : turn := Turn "hello" (Reply "hi there") no_fault 10.

(** A server on which the target database exists and is still empty. *)
Definition unprepared_world : world :=
  World (Server {[ "chat" := DatabaseManager.new_database ]} (fun _ => "bob")) [] [].

(** The indexes of a database in which the bootstrap created the table. *)
Definition installed_indexes : gset string :=
  {["idx_chat_history_created_at"; "idx_chat_history_user_id";
    "idx_chat_history_conversation_id";
    "chat_history_pkey"; "chat_history_conversation_id_key"]}.

(** The same server once the bootstrap has run: the target database with
    its empty table, indexes, function and trigger. *)
Definition ready_world : world :=
  World (Server {[ "chat" := Database (Some (Table [] 0)) installed_indexes true true ]}
                (fun _ => "bob")) [] [].

(** Turns for the failure scenarios: one whose upsert cannot connect, one
    whose completion raises, and one more line after it. *)
Definition store_down : faults :=
  fun c => match c with
           | Connect => Some (OperationalError "connection refused")
           | _ => None
           end.

Definition lost_turn : turn := Turn "first" (Reply "one") store_down 10.

(** A turn whose upsert is executed and then loses the connection at the
    commit. *)
Definition commit_lost : faults :=
  fun c => match c with
           | Commit => Some (OperationalError "connection lost")
           | _ => None
           end.

Definition unsaved_turn : turn := Turn "first" (Reply "one") commit_lost 10.

Definition kept_turn : turn := Turn "second" (Reply "two") no_fault 20.

Definition failing_turn : turn :=
  Turn "how are you" (Fails (RemoteError "unavailable")) no_fault 20.

Definition next_turn : turn := Turn "still there?" (Reply "yes") no_fault 30.

(** The database the statements of [create_table_sql] make of [d]. *)
Definition installed (d : database) : database :=
  Database (Some (default (Table [] 0) (chat_history d)))
           ({["idx_chat_history_created_at"]} ∪
            ({["idx_chat_history_user_id"]} ∪
             ({["idx_chat_history_conversation_id"]} ∪
              match chat_history d with
              | Some _ => indexes d
              | None =>
                  {["chat_history_pkey"; "chat_history_conversation_id_key"]}
                  ∪ indexes d
              end)))
           true true.

(** A database with the position of its sequence left out, and two servers
    that differ at most in the position of sequences. *)
Definition forget_sequence (d : database) : database :=
  Database (match chat_history d with
            | Some t => Some (Table (rows t) 0)
            | None => None
            end)
           (indexes d) (update_updated_at_column d)
           (update_chat_history_updated_at d).

Definition same_but_sequence (s s' : server) : Prop :=
  default_database s' = default_database s /\
  forall n, forget_sequence <$> databases s' !! n = forget_sequence <$> databases s !! n.

(** ** Further observations on tables, schemas and traces *)

(** The constraints of [chat_history]: UNIQUE (conversation_id), PRIMARY KEY
    (id), and no id beyond the last value drawn from the sequence. *)
Definition table_ok (t : table) : Prop :=
  NoDup (map conversation_id (rows t)) /\
  NoDup (map row_id (rows t)) /\
  Forall (fun r => (row_id r <= id_seq t)%N) (rows t).

(** What the data definition statements decide in one database. *)
Definition schema (d : database) : bool * gset string * bool * bool :=
  (bool_decide (is_Some (chat_history d)), indexes d,
   update_updated_at_column d, update_chat_history_updated_at d).

(** The histories the model was invoked on, and the number of connection
    attempts, along a trace. *)
Fixpoint invocations (tr : list effect) : list (list Message) :=
  match tr with
  | [] => []
  | LlmInvoke h :: tr' => h :: invocations tr'
  | _ :: tr' => invocations tr'
  end.

Fixpoint connections (tr : list effect) : nat :=
  match tr with
  | [] => 0
  | PgConnect _ :: tr' => S (connections tr')
  | _ :: tr' => connections tr'
  end.

(** What a program appended to the trace of [w] on the way to [w']. *)
Definition appended (w w' : world) : list effect :=
  drop (length (trace w)) (trace w').

(** A line of the run is an exit sentinel. *)
Definition exits (turns : list turn) : bool :=
  existsb (fun t => is_sentinel (user_input t)) turns.

(** * Properties *)

(** ** The sentinel check *)
Section Strings.

Lemma isspace_lower_char c : Py.isspace (Py.lower_char c) = Py.isspace c.
Proof. destruct c as [[] [] [] [] [] [] [] []]; reflexivity. Qed.

Lemma lower_empty s : Py.lower s = EmptyString -> s = EmptyString.
Proof. destruct s; [reflexivity | discriminate]. Qed.

Lemma lstrip_lower s : Py.lstrip (Py.lower s) = Py.lower (Py.lstrip s).
Proof.
  induction s as [|c s IH]; [reflexivity |].
  cbn [Py.lower Py.lstrip]. rewrite isspace_lower_char.
  destruct (Py.isspace c); [exact IH | reflexivity].
Qed.

Lemma rstrip_lower s : Py.rstrip (Py.lower s) = Py.lower (Py.rstrip s).
Proof.
  induction s as [|c s IH]; [reflexivity |].
  cbn [Py.lower Py.rstrip]. rewrite IH, isspace_lower_char.
  destruct (Py.rstrip s) as [|c' r]; cbn [Py.lower].
  - destruct (Py.isspace c); reflexivity.
  - reflexivity.
Qed.

(** Trimming and lowercasing commute, so "the lowercased, trimmed form"
    of a line is one string. *)
Lemma strip_lower s : Py.strip (Py.lower s) = Py.lower (Py.strip s).
Proof. unfold Py.strip. now rewrite lstrip_lower, rstrip_lower. Qed.

Lemma is_sentinel_spec line :
  is_sentinel line = true <->
  Py.lower (Py.strip line) = "exit" \/ Py.lower (Py.strip line) = "quit".
Proof.
  unfold is_sentinel. rewrite bool_decide_eq_true.
  rewrite !elem_of_cons, elem_of_nil. tauto.
Qed.

(** The check does not see the case of the letters. *)
Lemma sentinel_case_insensitive s s' :
  Py.lower s = Py.lower s' -> is_sentinel s = is_sentinel s'.
Proof.
  intros H. unfold is_sentinel. now rewrite <- !strip_lower, H.
Qed.

Lemma append_cons c s x : String c s ++ x = String c (s ++ x).
Proof. reflexivity. Qed.

Lemma lstrip_spaces ws x :
  all_space ws = true -> Py.lstrip (ws ++ x) = Py.lstrip x.
Proof.
  induction ws as [|c ws IH]; [reflexivity |].
  rewrite append_cons. cbn [Py.lstrip all_space].
  intros H. apply andb_prop in H as [-> H]. now apply IH.
Qed.

Lemma rstrip_all_space ws : all_space ws = true -> Py.rstrip ws = EmptyString.
Proof.
  induction ws as [|c ws IH]; cbn [Py.rstrip all_space]; [reflexivity |].
  intros H. apply andb_prop in H as [-> H]. now rewrite IH.
Qed.

Lemma rstrip_spaces x ws :
  all_space ws = true -> Py.rstrip (x ++ ws) = Py.rstrip x.
Proof.
  intros H. induction x as [|c x IH].
  - now apply rstrip_all_space.
  - rewrite append_cons. cbn [Py.rstrip]. now rewrite IH.
Qed.

Lemma strip_spaces_right s ws :
  all_space ws = true -> Py.strip (s ++ ws) = Py.strip s.
Proof.
  intros H. unfold Py.strip.
  induction s as [|c s IH].
  - assert (E : Py.lstrip ws = EmptyString).
    { clear -H. induction ws as [|a ws IHws]; [reflexivity |].
      cbn [all_space Py.lstrip] in *. apply andb_prop in H as [-> H]. auto. }
    change (EmptyString ++ ws) with ws. now rewrite E.
  - rewrite append_cons. cbn [Py.lstrip].
    destruct (Py.isspace c); [exact IH |].
    rewrite <- append_cons. now apply rstrip_spaces.
Qed.

(** Nor the whitespace around the word. *)
Lemma sentinel_ignores_whitespace ws1 s ws2 :
  all_space ws1 = true -> all_space ws2 = true ->
  is_sentinel (ws1 ++ s ++ ws2) = is_sentinel s.
Proof.
  intros H1 H2. unfold is_sentinel, Py.strip.
  rewrite (lstrip_spaces ws1 _ H1).
  fold (Py.strip (s ++ ws2)). fold (Py.strip s).
  now rewrite (strip_spaces_right s ws2 H2).
Qed.

End Strings.

(** ** Rows and the upsert statement *)
Section Upsert.

Lemma find_existsb {A} (p : A -> bool) l :
  existsb p l = bool_decide (is_Some (find p l)).
Proof.
  induction l as [|x l IH]; cbn; [reflexivity |].
  destruct (p x); cbn; [reflexivity | exact IH].
Qed.

Lemma find_map_if {A} (p : A -> bool) (f : A -> A) l :
  (forall x, p x = true -> p (f x) = true) ->
  find p (map (fun x => if p x then f x else x) l) = f <$> find p l.
Proof.
  intros Hf. induction l as [|x l IH]; cbn; [reflexivity |].
  destruct (p x) eqn:Hx.
  - now rewrite (Hf x Hx).
  - now rewrite Hx.
Qed.

Lemma find_map_other {A} (p q : A -> bool) (f : A -> A) l :
  (forall x, p x = true -> q x = false /\ q (f x) = false) ->
  find q (map (fun x => if p x then f x else x) l) = find q l.
Proof.
  intros Hf. induction l as [|x l IH]; cbn; [reflexivity |].
  destruct (p x) eqn:Hx.
  - destruct (Hf x Hx) as [-> ->]. exact IH.
  - destruct (q x); [reflexivity | exact IH].
Qed.

Lemma find_snoc {A} (p : A -> bool) l x :
  find p (l ++ [x])%list =
  match find p l with
  | Some y => Some y
  | None => if p x then Some x else None
  end.
Proof.
  induction l as [|y l IH]; cbn; [reflexivity |].
  destruct (p y); [reflexivity | exact IH].
Qed.

Lemma conflicts_do_update cid d ts m r :
  conflicts cid (do_update d ts m r) = conflicts cid r.
Proof.
  unfold conflicts, do_update, before_update.
  now destruct (update_chat_history_updated_at d).
Qed.

(** The statement goes through only when the table exists, the parameters
    are taken and the sequence is not exhausted; then it leaves the table
    with the rows rewritten or extended and the sequence one further. *)
Lemma insert_on_conflict_inv cid uid created m ts d d' :
  insert_on_conflict cid uid created m ts d = inr d' ->
  exists t,
    chat_history d = Some t /\
    jsonb_accepts m = true /\
    (has_nul cid = false /\ varchar_255 cid = true) /\
    (has_nul uid = false /\ varchar_255 uid = true) /\
    (id_seq t < serial_max)%N /\
    d' = Database
           (Some (Table
                    (if existsb (conflicts cid) (rows t)
                     then map (fun r => if conflicts cid r
                                        then do_update d ts m r else r) (rows t)
                     else (rows t ++ [Row (N.succ (id_seq t)) cid uid created m ts])%list)
                    (N.succ (id_seq t))))
           (indexes d) (update_updated_at_column d)
           (update_chat_history_updated_at d).
Proof.
  unfold insert_on_conflict.
  destruct (has_nul cid); [discriminate |].
  destruct (has_nul uid); [discriminate |]. cbn [orb].
  destruct (chat_history d) as [t|]; [| discriminate].
  destruct (jsonb_accepts m); [| discriminate]. cbn [negb].
  destruct (varchar_255 cid); [| discriminate].
  destruct (varchar_255 uid); [| discriminate]. cbn [andb negb].
  destruct (N.leb_spec serial_max (id_seq t)) as [Hle|Hlt]; [discriminate |].
  intros [= <-]. exists t. repeat split; auto.
Qed.

(** What the statement leaves under the conversation id it was given. *)
Lemma insert_on_conflict_row cid uid created m ts d d' t :
  chat_history d = Some t ->
  insert_on_conflict cid uid created m ts d = inr d' ->
  update_chat_history_updated_at d' = update_chat_history_updated_at d /\
  update_updated_at_column d' = update_updated_at_column d /\
  is_Some (chat_history d') /\
  select_row cid d' =
    Some (match select_row cid d with
          | Some r => do_update d ts m r
          | None => Row (N.succ (id_seq t)) cid uid created m ts
          end).
Proof.
  intros Ht Hi.
  destruct (insert_on_conflict_inv _ _ _ _ _ _ _ Hi) as (t0 & Ht0 & _ & _ & _ & _ & ->).
  rewrite Ht in Ht0. injection Ht0 as <-.
  unfold select_row. rewrite Ht. cbn. repeat split; [eauto |].
  rewrite find_existsb.
  destruct (find (conflicts cid) (rows t)) as [r|] eqn:Hfind; cbn.
  - rewrite find_map_if, Hfind; [reflexivity |].
    intros x Hx. now rewrite conflicts_do_update.
  - rewrite find_snoc, Hfind.
    unfold conflicts at 1. cbn. now rewrite bool_decide_eq_true_2.
Qed.

(** Rows of other conversations are left as they are. *)
Lemma insert_on_conflict_other cid cid' uid created m ts d d' :
  cid' <> cid ->
  insert_on_conflict cid uid created m ts d = inr d' ->
  select_row cid' d' = select_row cid' d.
Proof.
  intros Hne Hi.
  destruct (insert_on_conflict_inv _ _ _ _ _ _ _ Hi) as (t & Ht & _ & _ & _ & _ & ->).
  unfold select_row. rewrite Ht. cbn.
  destruct (existsb (conflicts cid) (rows t)).
  - apply find_map_other. intros x Hx.
    rewrite conflicts_do_update. unfold conflicts in *.
    apply bool_decide_eq_true in Hx.
    rewrite bool_decide_eq_false_2 by congruence. tauto.
  - rewrite find_snoc. destruct (find (conflicts cid') (rows t)); [reflexivity |].
    unfold conflicts. cbn. now rewrite bool_decide_eq_false_2 by congruence.
Qed.

(** What is left out by [forget_sequence] is not seen by a lookup nor by
    the schema. *)
Lemma select_row_forget c d : select_row c (forget_sequence d) = select_row c d.
Proof. unfold select_row, forget_sequence. cbn. now destruct (chat_history d). Qed.

Lemma schema_forget d : schema (forget_sequence d) = schema d.
Proof. unfold schema, forget_sequence. cbn. now destruct (chat_history d). Qed.

Lemma forget_draw_sequence d pending :
  forget_sequence (draw_sequence d pending) = forget_sequence d.
Proof.
  unfold draw_sequence, forget_sequence.
  destruct d as [[t|] ix fn tr]; cbn; [| reflexivity].
  destruct (chat_history pending); reflexivity.
Qed.

Lemma same_but_sequence_refl s : same_but_sequence s s.
Proof. now split. Qed.

Lemma same_but_sequence_row_at s s' n c :
  same_but_sequence s s' -> row_at n c s' = row_at n c s.
Proof.
  intros [_ H]. specialize (H n). unfold row_at.
  destruct (databases s' !! n) as [d'|], (databases s !! n) as [d|];
    cbn -[forget_sequence] in *; try discriminate; [| reflexivity].
  assert (E : forget_sequence d' = forget_sequence d) by congruence.
  now rewrite <- (select_row_forget c d'), E, select_row_forget.
Qed.

Lemma same_but_sequence_schema s s' n :
  same_but_sequence s s' ->
  schema <$> databases s' !! n = schema <$> databases s !! n.
Proof.
  intros [_ H]. specialize (H n).
  destruct (databases s' !! n) as [d'|], (databases s !! n) as [d|];
    cbn -[forget_sequence] in *; try discriminate; [| reflexivity].
  assert (E : forget_sequence d' = forget_sequence d) by congruence.
  now rewrite <- (schema_forget d'), E, schema_forget.
Qed.

(** Putting back a database with the sequence moved. *)
Lemma same_but_sequence_draw s n d pending :
  databases s !! n = Some d ->
  same_but_sequence s
    (Server (<[n := draw_sequence d pending]> (databases s)) (default_database s)).
Proof.
  intros Hd. split; [reflexivity |]. intros n'. cbn.
  destruct (decide (n = n')) as [<-|Hne].
  - now rewrite lookup_insert_eq, Hd; cbn; rewrite forget_draw_sequence.
  - now rewrite lookup_insert_ne.
Qed.

End Upsert.

(** ** One pass of the loop *)
Section Turn.

Variables (environ : gmap string string) (cid : string) (created : Z).

Lemma graph_invoke_reply t w c :
  llm t = Reply c ->
  graph_invoke t w =
    (Ok tt,
     World (srv w)
           (chat_memory w ++ [HumanMessage (user_input t); AIMessage c])
           (trace w ++ [LlmInvoke (chat_memory w ++ [HumanMessage (user_input t)]);
                        Print (Assistant c)])).
Proof.
  intros Hc. unfold graph_invoke, user_node, assistant_node, llm_invoke,
    add_user_message, add_ai_message, print, emit, put_memory, get, bind, ret.
  cbn. rewrite Hc. cbn. now rewrite <- !app_assoc.
Qed.

Lemma graph_invoke_fails t w e :
  llm t = Fails e ->
  graph_invoke t w =
    (Raise e,
     World (srv w)
           (chat_memory w ++ [HumanMessage (user_input t)])
           (trace w ++ [LlmInvoke (chat_memory w ++ [HumanMessage (user_input t)])])).
Proof.
  intros Hc. unfold graph_invoke, user_node, assistant_node, llm_invoke,
    add_user_message, add_ai_message, print, emit, put_memory, get, bind, ret.
  cbn. now rewrite Hc.
Qed.

(** The [try] block of the loop either commits the statement or leaves
    the server as it was, up to a value drawn from the sequence; it never
    touches the message list. *)
Lemma persist_run t doc w :
  exists r w',
    persist environ cid created t doc w = (r, w') /\
    chat_memory w' = chat_memory w /\
    default_database (srv w') = default_database (srv w) /\
    trace w' =
      (trace w ++ [PgConnect (session_database (srv w) (DB_CONFIG environ))])%list /\
    (r = Ok tt -> written environ cid created t doc w w') /\
    (written environ cid created t doc w w' \/ same_but_sequence (srv w) (srv w')) /\
    (forall c, r <> Exit c).
Proof.
  unfold persist, connect, execute, commit, close, read_database, external,
    put_database, emit, get, raise, sys_exit, bind, ret.
  cbn.
  set (n := session_database (srv w) (DB_CONFIG environ)).
  assert (Hquiet : forall (r : result unit) tr,
            (forall c, r <> Exit c) -> r <> Ok tt ->
            exists r0 w',
              (r, World (srv w) (chat_memory w) tr) = (r0, w') /\
              chat_memory w' = chat_memory w /\
              default_database (srv w') = default_database (srv w) /\
              trace w' = tr /\
              (r0 = Ok tt -> written environ cid created t doc w w') /\
              (written environ cid created t doc w w'
               \/ same_but_sequence (srv w) (srv w')) /\
              (forall c, r0 <> Exit c)).
  { intros r tr Hex Hok. exists r. eexists. split; [reflexivity |]. cbn.
    repeat (split; [reflexivity |]). split; [contradiction |].
    split; [right; apply same_but_sequence_refl | exact Hex]. }
  destruct (pg t Connect); cbn; [apply Hquiet; discriminate |].
  destruct (databases (srv w) !! n) as [d|] eqn:Hd; cbn;
    [| apply Hquiet; discriminate].
  destruct (pg t Execute); cbn; [apply Hquiet; discriminate |].
  rewrite Hd. cbn.
  destruct (insert_on_conflict cid USER_ID created doc (now t) d) as [e|d'] eqn:Hi;
    cbn; [apply Hquiet; discriminate |].
  destruct (pg t Commit); cbn.
  { do 2 eexists. split; [reflexivity |]. cbn.
    repeat (split; [reflexivity |]). split; [discriminate |].
    split; [right; now apply same_but_sequence_draw | discriminate]. }
  assert (Hwr : written environ cid created t doc w
                  (World (Server (<[n := d']> (<[n := draw_sequence d d']>
                                                  (databases (srv w))))
                                 (default_database (srv w)))
                         (chat_memory w) (trace w ++ [PgConnect n]))).
  { exists d, d'. split; [exact Hd |]. split; [exact Hi |]. cbn.
    apply insert_insert_eq. }
  destruct (pg t Close); cbn; do 2 eexists; (split; [reflexivity |]); cbn;
    repeat (split; [reflexivity |]); (split; [intros _; exact Hwr |]);
    (split; [left; exact Hwr | discriminate]).
Qed.

Lemma session_database_default s s' cfg :
  default_database s' = default_database s ->
  session_database s' cfg = session_database s cfg.
Proof. unfold session_database. now intros ->. Qed.

(** After a committed upsert the row of the run holds the document that
    was sent, under the user id it was first inserted with. *)
Lemma written_persisted t doc w w' :
  written environ cid created t doc w w' ->
  default_database (srv w') = default_database (srv w) ->
  exists r,
    persisted environ cid w' = Some r /\
    messages r = doc /\
    user_id r = from_option user_id USER_ID (persisted environ cid w).
Proof.
  intros (d & d' & Hd & Hi & Hw) Hdef. unfold persisted, row_at.
  rewrite (session_database_default _ _ _ Hdef), Hw, lookup_insert_eq, Hd.
  cbn.
  destruct (insert_on_conflict_inv _ _ _ _ _ _ _ Hi) as (tb & Ht & _).
  destruct (insert_on_conflict_row cid USER_ID created doc (now t) d d' tb Ht Hi)
    as (_ & _ & _ & Hsel).
  rewrite Hsel.
  eexists. split; [reflexivity |].
  destruct (select_row cid d) as [r0|]; cbn; [| split; reflexivity].
  unfold do_update, before_update.
  destruct (update_chat_history_updated_at d); split; reflexivity.
Qed.

(** A server the upsert did not reach shows the row it showed before. *)
Lemma unwritten_persisted w w' :
  srv w' = srv w -> persisted environ cid w' = persisted environ cid w.
Proof. unfold persisted, row_at. now intros ->. Qed.

(** So does a server on which at most a sequence has moved. *)
Lemma quiet_persisted w w' :
  same_but_sequence (srv w) (srv w') ->
  persisted environ cid w' = persisted environ cid w.
Proof.
  intros H. unfold persisted.
  rewrite (session_database_default _ _ _ (proj1 H)).
  now apply same_but_sequence_row_at.
Qed.

Lemma chat_turn_fails t w e :
  llm t = Fails e ->
  chat_turn environ cid created t w =
    (Raise e,
     World (srv w)
           (chat_memory w ++ [HumanMessage (user_input t)])
           (trace w ++ [LlmInvoke (chat_memory w ++ [HumanMessage (user_input t)])])).
Proof.
  intros Hc. unfold chat_turn, bind. now rewrite (graph_invoke_fails _ _ _ Hc).
Qed.

Lemma chat_turn_reply t w c :
  llm t = Reply c ->
  let history := (chat_memory w ++ [HumanMessage (user_input t); AIMessage c])%list in
  exists w',
    chat_turn environ cid created t w = (Ok tt, w') /\
    chat_memory w' = history /\
    default_database (srv w') = default_database (srv w) /\
    (trace w ++ [LlmInvoke (chat_memory w ++ [HumanMessage (user_input t)])])%list
      `prefix_of` trace w' /\
    (persist_result environ cid created t w = Ok tt ->
     written environ cid created t (formatted_messages history) w w') /\
    (written environ cid created t (formatted_messages history) w w'
     \/ same_but_sequence (srv w) (srv w')).
Proof.
  intros Hc history. unfold chat_turn, persist_result, bind, get, try_except.
  rewrite (graph_invoke_reply _ _ _ Hc). cbn -[persist].
  fold history.
  match goal with |- context [persist _ _ _ _ ?doc ?wg] =>
    destruct (persist_run t doc wg) as (r & w' & Hp & Hm & Hdef & Htr & Hok & Hw & Hex)
  end.
  rewrite Hp. cbn in Hm, Hdef, Htr, Hok, Hw.
  assert (Hpre : forall k,
    (trace w ++ [LlmInvoke (chat_memory w ++ [HumanMessage (user_input t)])])%list
      `prefix_of` (trace w' ++ k)%list).
  { intros k. rewrite Htr, <- !app_assoc.
    apply prefix_app, prefix_cons, prefix_nil. }
  destruct r as [[]|e|c0].
  - exists w'. repeat split; auto.
    rewrite <- (app_nil_r (trace w')). apply Hpre.
  - eexists. split; [reflexivity |]. cbn. repeat split; auto.
  - now destruct (Hex c0).
Qed.

End Turn.

(** ** The loop *)
Section Loop.

Variables (environ : gmap string string) (cid : string) (created : Z).

Lemma chat_loop_nil w :
  chat_loop environ cid created [] w = (Ok AwaitingInput, prompted w).
Proof. reflexivity. Qed.

Lemma chat_loop_sentinel t rest w :
  is_sentinel (user_input t) = true ->
  chat_loop environ cid created (t :: rest) w =
    (Ok Terminated,
     World (srv w) (chat_memory w) (trace w ++ [Print Prompt; Print Goodbye])).
Proof.
  intros Hs. cbn. unfold bind, print, emit. cbn. rewrite Hs. cbn.
  now rewrite <- app_assoc.
Qed.

Lemma chat_loop_turn t rest w :
  is_sentinel (user_input t) = false ->
  chat_loop environ cid created (t :: rest) w =
    match chat_turn environ cid created t (prompted w) with
    | (Ok _, w') => chat_loop environ cid created rest w'
    | (Raise e, w') => (Raise e, w')
    | (Exit c, w') => (Exit c, w')
    end.
Proof.
  intros Hs. cbn. unfold bind at 1. unfold print, emit. cbn. rewrite Hs.
  reflexivity.
Qed.

(** The loop only ever appends to the message list and to the trace. *)
Lemma chat_loop_extends turns w :
  chat_memory w `prefix_of` chat_memory (chat_loop environ cid created turns w).2 /\
  trace w `prefix_of` trace (chat_loop environ cid created turns w).2.
Proof.
  revert w. induction turns as [|t rest IH]; intros w.
  - rewrite chat_loop_nil. cbn. split; [reflexivity | now apply prefix_app_r].
  - destruct (is_sentinel (user_input t)) eqn:Hs.
    + rewrite (chat_loop_sentinel _ _ _ Hs). cbn.
      split; [reflexivity | now apply prefix_app_r].
    + rewrite (chat_loop_turn _ _ _ Hs).
      destruct (llm t) as [c|e] eqn:Hc.
      * destruct (chat_turn_reply environ cid created t (prompted w) c Hc)
          as (w' & -> & Hm & _ & Htr & _).
        destruct (IH w') as [IHm IHt]. split.
        -- etrans; [| exact IHm]. rewrite Hm. now apply prefix_app_r.
        -- etrans; [| exact IHt]. apply prefix_app_l in Htr. cbn in Htr.
           now apply prefix_app_l in Htr.
      * rewrite (chat_turn_fails environ cid created t (prompted w) e Hc). cbn.
        split; [now apply prefix_app_r |].
        rewrite <- app_assoc. now apply prefix_app_r.
Qed.

End Loop.

(** C7 (exit sentinel). A line whose trimmed, lowercased form is "exit" or
    "quit" ends the loop: the farewell is printed, the model is not called,
    no connection to the database is opened and the message list stays as it
    was.  Any other line starts a turn: the line is appended as a user
    message and the model is invoked on the history that ends with it.  The
    lines "exit", "EXIT" and "  Quit " are of the first kind. *)
Theorem exit_sentinel environ cid created t rest w :
  let form := Py.lower (Py.strip (user_input t)) in
  (form = "exit" \/ form = "quit" ->
   chat_loop environ cid created (t :: rest) w =
     (Ok Terminated,
      World (srv w) (chat_memory w) (trace w ++ [Print Prompt; Print Goodbye])))
  /\ (~ (form = "exit" \/ form = "quit") ->
      exists r w',
        chat_loop environ cid created (t :: rest) w = (r, w') /\
        (chat_memory w ++ [HumanMessage (user_input t)])%list
          `prefix_of` chat_memory w' /\
        (trace w ++ [Print Prompt;
                     LlmInvoke (chat_memory w ++ [HumanMessage (user_input t)])])%list
          `prefix_of` trace w')
  /\ Py.lower (Py.strip "exit") = "exit"
  /\ Py.lower (Py.strip "EXIT") = "exit"
  /\ Py.lower (Py.strip "  Quit ") = "quit".
Proof.
  intros form. split; [| split; [| repeat split]].
  - intros Hf. apply chat_loop_sentinel. now apply is_sentinel_spec.
  - intros Hf.
    assert (Hs : is_sentinel (user_input t) = false).
    { destruct (is_sentinel (user_input t)) eqn:Hs; [| reflexivity].
      apply is_sentinel_spec in Hs. contradiction. }
    rewrite (chat_loop_turn _ _ _ _ _ _ Hs).
    destruct (llm t) as [c|e] eqn:Hc.
    + destruct (chat_turn_reply environ cid created t (prompted w) c Hc)
        as (w' & -> & Hm & _ & Htr & _).
      destruct (chat_loop_extends environ cid created rest w') as [Em Et].
      do 2 eexists. split; [apply surjective_pairing |]. split.
      * etrans; [| exact Em]. rewrite Hm. cbn.
        apply prefix_app, prefix_cons, prefix_nil.
      * etrans; [| exact Et]. cbn in Htr. now rewrite <- app_assoc in Htr.
    + rewrite (chat_turn_fails environ cid created t (prompted w) e Hc).
      do 2 eexists. split; [reflexivity |]. cbn.
      split; [reflexivity |]. now rewrite <- app_assoc.
Qed.

Lemma exit_sentinel_witness :
  chat_loop ∅ "c0" 0 [Turn "  Quit " (Reply "unused") no_fault 1]
            (World (Server ∅ (fun _ => "postgres")) [] []) =
    (Ok Terminated,
     World (Server ∅ (fun _ => "postgres")) [] [Print Prompt; Print Goodbye])
  /\ exists r w',
       chat_loop ∅ "c0" 0 [Turn "hello" (Reply "hi there") no_fault 1]
                 (World (Server ∅ (fun _ => "postgres")) [] []) = (r, w') /\
       [HumanMessage "hello"] `prefix_of` chat_memory w' /\
       [Print Prompt; LlmInvoke [HumanMessage "hello"]] `prefix_of` trace w'.
Proof.
  split.
  - apply (exit_sentinel ∅ "c0" 0 (Turn "  Quit " (Reply "unused") no_fault 1) []
             (World (Server ∅ (fun _ => "postgres")) [] [])).
    right. reflexivity.
  - apply (exit_sentinel ∅ "c0" 0 (Turn "hello" (Reply "hi there") no_fault 1) []
             (World (Server ∅ (fun _ => "postgres")) [] [])).
    intros [H|H]; discriminate H.
Defined.

(** ** The upsert *)

Lemma schema_installed_inv d :
  schema_installed d = true ->
  exists t, chat_history d = Some t /\ update_chat_history_updated_at d = true.
Proof.
  unfold schema_installed. intros H.
  apply andb_prop in H as [H Htrig]. apply andb_prop in H as [H _].
  apply bool_decide_eq_true in H as [t Ht]. eauto.
Qed.

(** The statement keeps the schema in place, so every upsert of a run that
    got past the bootstrap meets it. *)
Lemma insert_on_conflict_installed cid uid created doc ts d d' :
  schema_installed d = true ->
  insert_on_conflict cid uid created doc ts d = inr d' ->
  schema_installed d' = true.
Proof.
  intros H Hi.
  destruct (insert_on_conflict_inv _ _ _ _ _ _ _ Hi) as (t & Ht & _ & _ & _ & _ & ->).
  unfold schema_installed in *. rewrite Ht in H. cbn in *. exact H.
Qed.

Lemma do_update_installed d ts doc r :
  update_chat_history_updated_at d = true ->
  do_update d ts doc r =
    Row (row_id r) (conversation_id r) (user_id r) (created_at r) doc ts.
Proof. unfold do_update, before_update. now intros ->. Qed.

Lemma insert_on_conflict_count cid uid created doc ts d d' r :
  select_row cid d = Some r ->
  insert_on_conflict cid uid created doc ts d = inr d' ->
  (length ∘ rows) <$> chat_history d' = (length ∘ rows) <$> chat_history d.
Proof.
  intros Hr Hi.
  destruct (insert_on_conflict_inv _ _ _ _ _ _ _ Hi) as (t & Ht & _ & _ & _ & _ & ->).
  unfold select_row in Hr. rewrite Ht in *. cbn in *.
  rewrite find_existsb, Hr. cbn. now rewrite length_map.
Qed.

(** C5 (upsert idempotence). On the table as [create_chat_table] sets it
    up, when two upserts in succession with the same conversation id and
    the same messages go through, the second leaves the row of that
    conversation as the first one left it, except for [updated_at], which
    takes the time of the second; no row is added and rows of other
    conversations are the same after both.  (The statement is refused,
    and then changes no row, for a document with U+0000, an id that does
    not fit VARCHAR(255) or an exhausted sequence: see
    [insert_on_conflict_inv].) *)
Theorem upsert_idempotent cid uid uid' created created' doc ts1 ts2 d d1 d2 :
  schema_installed d = true ->
  insert_on_conflict cid uid created doc ts1 d = inr d1 ->
  insert_on_conflict cid uid' created' doc ts2 d1 = inr d2 ->
  exists r1,
    select_row cid d1 = Some r1 /\
    select_row cid d2 =
      Some (Row (row_id r1) (conversation_id r1) (user_id r1) (created_at r1)
                (messages r1) ts2) /\
    (length ∘ rows) <$> chat_history d2 = (length ∘ rows) <$> chat_history d1 /\
    forall cid', cid' <> cid -> select_row cid' d2 = select_row cid' d1.
Proof.
  intros Hs H1 H2. destruct (schema_installed_inv d Hs) as (t & Ht & Htrig).
  destruct (insert_on_conflict_row cid uid created doc ts1 d d1 t Ht H1)
    as (Htrig1 & _ & [t1 Ht1] & Hsel1).
  destruct (insert_on_conflict_row cid uid' created' doc ts2 d1 d2 t1 Ht1 H2)
    as (_ & _ & _ & Hsel2).
  rewrite Hsel1 in Hsel2. rewrite Htrig in Htrig1.
  rewrite (do_update_installed _ _ _ _ Htrig1) in Hsel2.
  eexists. split; [exact Hsel1 |]. split; [| split].
  - rewrite Hsel2. destruct (select_row cid d) as [r|].
    + now rewrite (do_update_installed _ _ _ _ Htrig).
    + reflexivity.
  - exact (insert_on_conflict_count _ _ _ _ _ _ _ _ Hsel1 H2).
  - intros cid' Hne. exact (insert_on_conflict_other _ _ _ _ _ _ _ _ Hne H2).
Qed.

Lemma upsert_idempotent_witness :
  exists r1,
    select_row "c1" (Database (Some (Table [Row 1 "c1" "abc" 5 (JArray []) 10] 1))
                              ∅ true true) = Some r1 /\
    select_row "c1" (Database (Some (Table [Row 1 "c1" "abc" 5 (JArray []) 20] 2))
                              ∅ true true) =
      Some (Row (row_id r1) (conversation_id r1) (user_id r1) (created_at r1)
                (messages r1) 20) /\
    (length ∘ rows) <$>
      chat_history (Database (Some (Table [Row 1 "c1" "abc" 5 (JArray []) 20] 2))
                             ∅ true true) =
    (length ∘ rows) <$>
      chat_history (Database (Some (Table [Row 1 "c1" "abc" 5 (JArray []) 10] 1))
                             ∅ true true) /\
    forall cid', cid' <> "c1" ->
      select_row cid' (Database (Some (Table [Row 1 "c1" "abc" 5 (JArray []) 20] 2))
                                ∅ true true) =
      select_row cid' (Database (Some (Table [Row 1 "c1" "abc" 5 (JArray []) 10] 1))
                                ∅ true true).
Proof.
  apply (upsert_idempotent "c1" "abc" "abc" 5 5 (JArray []) 10 20
           (Database (Some (Table [] 0)) ∅ true true)); reflexivity.
Defined.

(** C6 (frame of the upsert). When the conversation id already has a row
    and the upsert goes through, it replaces [messages] and refreshes
    [updated_at]; [id], [conversation_id], [user_id] and [created_at] of
    the row stay, whatever [user_id] and [created_at] the call passes.  No
    row is added and the rows of other conversations are untouched.  (A
    statement that is refused replaces nothing.) *)
Theorem upsert_frame cid uid created doc ts d d' r :
  schema_installed d = true ->
  select_row cid d = Some r ->
  insert_on_conflict cid uid created doc ts d = inr d' ->
  select_row cid d' =
    Some (Row (row_id r) (conversation_id r) (user_id r) (created_at r) doc ts) /\
  (length ∘ rows) <$> chat_history d' = (length ∘ rows) <$> chat_history d /\
  forall cid', cid' <> cid -> select_row cid' d' = select_row cid' d.
Proof.
  intros Hs Hr Hi. destruct (schema_installed_inv d Hs) as (t & Ht & Htrig).
  destruct (insert_on_conflict_row cid uid created doc ts d d' t Ht Hi)
    as (_ & _ & _ & Hsel).
  rewrite Hr, (do_update_installed _ _ _ _ Htrig) in Hsel.
  split; [exact Hsel |]. split.
  - exact (insert_on_conflict_count _ _ _ _ _ _ _ _ Hr Hi).
  - intros cid' Hne. exact (insert_on_conflict_other _ _ _ _ _ _ _ _ Hne Hi).
Qed.

Lemma upsert_frame_witness :
  select_row "c1"
    (Database (Some (Table [Row 7 "c1" "abc" 5 (JArray [JString "new"]) 20] 8))
              ∅ true true)
    = Some (Row 7 "c1" "abc" 5 (JArray [JString "new"]) 20) /\
  (length ∘ rows) <$>
    chat_history
      (Database (Some (Table [Row 7 "c1" "abc" 5 (JArray [JString "new"]) 20] 8))
                ∅ true true) =
  (length ∘ rows) <$>
    chat_history (Database (Some (Table [Row 7 "c1" "abc" 5 (JArray []) 6] 7)) ∅ true true) /\
  forall cid', cid' <> "c1" ->
    select_row cid'
      (Database (Some (Table [Row 7 "c1" "abc" 5 (JArray [JString "new"]) 20] 8))
                ∅ true true) =
    select_row cid'
      (Database (Some (Table [Row 7 "c1" "abc" 5 (JArray []) 6] 7)) ∅ true true).
Proof.
  apply (upsert_frame "c1" "someone else" 99 (JArray [JString "new"]) 20
           (Database (Some (Table [Row 7 "c1" "abc" 5 (JArray []) 6] 7)) ∅ true true)
           (Database (Some (Table [Row 7 "c1" "abc" 5 (JArray [JString "new"]) 20] 8))
                     ∅ true true)
           (Row 7 "c1" "abc" 5 (JArray []) 6)); reflexivity.
Defined.

(** ** Bootstrap *)
Section Bootstrap.

Import DatabaseManager.

Lemma indexes_again (a b c : string) (ix : gset string) :
  {[a]} ∪ ({[b]} ∪ ({[c]} ∪ ({[a]} ∪ ({[b]} ∪ ({[c]} ∪ ix))))) =
  {[a]} ∪ ({[b]} ∪ ({[c]} ∪ ix)).
Proof. apply set_eq. intros x. rewrite !elem_of_union. tauto. Qed.

Lemma create_table_sql_run d :
  run_script create_table_sql d = inr (installed d).
Proof. destruct d as [[t|] ix fn tr]; reflexivity. Qed.

(** The script draws nothing from the sequence of a table that exists. *)
Lemma draw_sequence_installed d : draw_sequence d (installed d) = d.
Proof. destruct d as [[[rs sq]|] ix fn tr]; reflexivity. Qed.

Lemma installed_twice d : installed (installed d) = installed d.
Proof.
  destruct d as [[t|] ix fn tr]; unfold installed; cbn; f_equal;
    apply indexes_again.
Qed.

Lemma server_eq (s s' : server) :
  databases s' = databases s -> default_database s' = default_database s -> s' = s.
Proof. destruct s, s'. cbn. now intros -> ->. Qed.

Lemma select_row_schema c d d' :
  run_script create_table_sql d = inr d' -> select_row c d' = select_row c d.
Proof.
  rewrite create_table_sql_run. intros [= <-]. unfold select_row, installed. cbn.
  now destruct (chat_history d).
Qed.

Lemma row_at_insert n0 n c s d' df :
  select_row c d' = row_at n0 c s ->
  row_at n c (Server (<[n0 := d']> (databases s)) df) = row_at n c s.
Proof.
  intros Hsel. unfold row_at in *. cbn.
  destruct (decide (n0 = n)) as [->|Hne].
  - now rewrite lookup_insert_eq.
  - now rewrite lookup_insert_ne.
Qed.

Lemma bootstrapped_refl w : bootstrapped w w.
Proof. now repeat split. Qed.

Lemma bootstrapped_trans w1 w2 w3 :
  bootstrapped w1 w2 -> bootstrapped w2 w3 -> bootstrapped w1 w3.
Proof.
  intros (Hm & Hd & Hr) (Hm' & Hd' & Hr'). repeat split.
  - congruence.
  - congruence.
  - intros n c. now rewrite Hr', Hr.
Qed.

Lemma bootstrapped_same s m tr w :
  s = srv w -> m = chat_memory w -> bootstrapped w (World s m tr).
Proof. intros -> ->. now repeat split. Qed.

(** [create_database_if_not_exists] returns or exits with status 1; no
    exception leaves it. *)
Lemma create_database_run environ f self w :
  exists r w',
    create_database_if_not_exists environ f self w = (r, w') /\
    (r = Ok tt \/ r = Exit 1%Z) /\
    bootstrapped w w'.
Proof.
  unfold create_database_if_not_exists, create_database_try, create_database,
    try_except, connect, close, read_database, external, put_database, print,
    emit, get, raise, sys_exit, bind, ret.
  cbn.
  destruct (Py.truthy (dbname self)); cbn;
    [| do 2 eexists; split; [reflexivity |]; split;
       [now right | now apply bootstrapped_same]].
  destruct (f Connect); cbn;
    [do 2 eexists; split; [reflexivity |]; split;
       [now right | now apply bootstrapped_same] |].
  match goal with |- context [databases (srv w) !! ?a] =>
    destruct (databases (srv w) !! a) end; cbn;
    [| do 2 eexists; split; [reflexivity |]; split;
       [now right | now apply bootstrapped_same]].
  destruct (f Select); cbn;
    [do 2 eexists; split; [reflexivity |]; split;
       [now right | now apply bootstrapped_same] |].
  destruct (databases (srv w) !! default "" (dbname self)) eqn:Ht; cbn.
  - destruct (f Close); cbn; do 2 eexists; (split; [reflexivity |]); split;
      first [now left | now right | now apply bootstrapped_same].
  - assert (Hnew : forall tr,
      bootstrapped w
        (World (Server (<[default "" (dbname self) := new_database]>
                          (databases (srv w)))
                       (default_database (srv w)))
               (chat_memory w) tr)).
    { intros tr. repeat split. intros n c. apply row_at_insert.
      unfold row_at. now rewrite Ht. }
    destruct (f Execute); cbn;
      [do 2 eexists; split; [reflexivity |]; split;
         [now right | now apply bootstrapped_same] |].
    destruct (f Close); cbn; do 2 eexists; (split; [reflexivity |]); split;
      first [now left | now right | apply Hnew].
Qed.

(** How [create_chat_table] ends: it exits before the commit and the
    server is as it was, or it commits what the script made of the database
    of the session and returns, unless closing raises. *)
Lemma create_chat_table_cases f self w :
  exists r w',
    create_chat_table f self w = (r, w') /\
    chat_memory w' = chat_memory w /\
    default_database (srv w') = default_database (srv w) /\
    ((r = Exit 1%Z /\ databases (srv w') = databases (srv w) /\
      (f Connect <> None \/ databases (srv w) !! session_database (srv w) self = None
       \/ f Execute <> None \/ f Commit <> None))
     \/ (exists d,
           databases (srv w) !! session_database (srv w) self = Some d /\
           databases (srv w') =
             <[session_database (srv w) self := installed d]> (databases (srv w)) /\
           ((r = Ok tt /\ f Close = None) \/ (r = Exit 1%Z /\ f Close <> None)))).
Proof.
  unfold create_chat_table, create_chat_table_try, try_except, connect,
    execute, commit, close, read_database, external, put_database, print,
    emit, get, raise, sys_exit, bind, ret.
  remember (run_script create_table_sql) as script eqn:Hscript.
  cbn. set (n := session_database (srv w) self).
  destruct (f Connect) eqn:Hc; cbn;
    [do 2 eexists; split; [reflexivity |]; cbn; repeat (split; [reflexivity |]);
     left; repeat split; left; discriminate |].
  destruct (databases (srv w) !! n) as [d|] eqn:Hd; cbn;
    [| do 2 eexists; split; [reflexivity |]; cbn; repeat (split; [reflexivity |]);
       left; repeat split; right; left; reflexivity].
  destruct (f Execute) eqn:He; cbn;
    [do 2 eexists; split; [reflexivity |]; cbn; repeat (split; [reflexivity |]);
     left; repeat split; right; right; left; discriminate |].
  rewrite Hd. cbn. subst script. rewrite create_table_sql_run. cbn.
  rewrite draw_sequence_installed, (insert_id _ _ _ Hd).
  destruct (f Commit) eqn:Hm; cbn;
    [do 2 eexists; split; [reflexivity |]; cbn; repeat (split; [reflexivity |]);
     left; repeat split; right; right; right; discriminate |].
  destruct (f Close) eqn:Hcl; cbn; do 2 eexists; (split; [reflexivity |]); cbn;
    repeat (split; [reflexivity |]); right; exists d;
    (split; [reflexivity |]); (split; [reflexivity |]).
  - right. split; [reflexivity | discriminate].
  - left. split; reflexivity.
Qed.

(** So [create_chat_table] returns or exits with status 1; when it
    returns, the schema is in place in the database of the session. *)
Lemma create_chat_table_run f self w :
  exists r w',
    create_chat_table f self w = (r, w') /\
    (r = Ok tt \/ r = Exit 1%Z) /\
    bootstrapped w w' /\
    (r = Ok tt ->
     exists d,
       databases (srv w') !! session_database (srv w) self = Some d /\
       schema_installed d = true /\
       run_script create_table_sql d = inr d).
Proof.
  destruct (create_chat_table_cases f self w)
    as (r & w' & Hrun & Hm & Hdef & [(-> & Hdb & _) | (d & Hd & Hdb & Hr)]).
  - exists (Exit 1%Z), w'. split; [exact Hrun |]. split; [now right |].
    split; [| discriminate].
    repeat split; auto. intros n c. unfold row_at. now rewrite Hdb.
  - exists r, w'. split; [exact Hrun |].
    split; [destruct Hr as [[-> _] | [-> _]]; auto |].
    split.
    + repeat split; auto. intros n c.
      rewrite (server_eq (Server (<[session_database (srv w) self := installed d]>
                                    (databases (srv w))) (default_database (srv w)))
                         (srv w')) by (cbn; auto).
      apply row_at_insert. unfold row_at. rewrite Hd.
      exact (select_row_schema c d (installed d) (create_table_sql_run d)).
    + intros _. exists (installed d). rewrite Hdb, lookup_insert_eq.
      split; [reflexivity |]. split; [reflexivity |].
      now rewrite create_table_sql_run, installed_twice.
Qed.

(** The script either exits with status 1 out of the bootstrap, or enters
    the loop in a world the bootstrap has prepared. *)
Lemma main_run environ cid created boot1 boot2 turns w :
  (exists w0,
     bootstrapped w w0 /\
     (exists d,
        databases (srv w0) !! session_database (srv w0) (DB_CONFIG environ) = Some d /\
        schema_installed d = true) /\
     main environ cid created boot1 boot2 turns w =
       chat_loop environ cid created turns w0)
  \/ (exists w',
        main environ cid created boot1 boot2 turns w = (Exit 1%Z, w') /\
        bootstrapped w w').
Proof.
  unfold main, bind, print, emit.
  destruct (create_database_run environ boot1 (DB_CONFIG environ) w)
    as (r1 & w1 & H1 & Hr1 & Hb1).
  rewrite H1.
  destruct Hr1 as [-> | ->]; [| right; eauto].
  destruct (create_chat_table_run boot2 (DB_CONFIG environ) w1)
    as (r2 & w2 & H2 & Hr2 & Hb2 & Hs).
  rewrite H2.
  destruct Hr2 as [-> | ->];
    [| right; eexists; split; [reflexivity | eapply bootstrapped_trans; eauto]].
  left. cbn.
  eexists. split; [| split; [| reflexivity]].
  - eapply bootstrapped_trans; [exact Hb1 |].
    eapply bootstrapped_trans; [exact Hb2 |]. now apply bootstrapped_same.
  - cbn. destruct (Hs eq_refl) as (d & Hd & Hsd & _). exists d. split; [| exact Hsd].
    rewrite <- Hd. f_equal. apply session_database_default.
    now destruct Hb2 as (_ & -> & _).
Qed.

End Bootstrap.

(** ** What the loop keeps true of the persisted row *)
Section Invariant.

Variables (environ : gmap string string) (cid : string) (created : Z).

Lemma whole_turns_app a b :
  whole_turns a = true -> whole_turns (a ++ b) = whole_turns b.
Proof.
  assert (H : forall n a, length a <= n ->
              whole_turns a = true -> whole_turns (a ++ b) = whole_turns b).
  { clear a. induction n as [|n IH]; intros a Hn Ha.
    - destruct a; [reflexivity | cbn in Hn; lia].
    - destruct a as [|[u|u] [|[v|v] a]]; try discriminate; [reflexivity |].
      cbn in *. apply IH; [lia | exact Ha]. }
  exact (H (length a) a (Nat.le_refl _)).
Qed.

Lemma row_invariant_mono w w' :
  srv w' = srv w ->
  chat_memory w `prefix_of` chat_memory w' ->
  row_invariant environ cid w -> row_invariant environ cid w'.
Proof.
  intros Hs Hm Hinv r Hr.
  rewrite (unwritten_persisted environ cid w w' Hs) in Hr.
  destruct (Hinv r Hr) as (Hu & ms & Hdoc & Hpre & Hwt).
  split; [exact Hu |]. exists ms.
  split; [exact Hdoc |]. split; [etrans; [exact Hpre | exact Hm] | exact Hwt].
Qed.

Lemma row_invariant_quiet w w' :
  same_but_sequence (srv w) (srv w') ->
  chat_memory w `prefix_of` chat_memory w' ->
  row_invariant environ cid w -> row_invariant environ cid w'.
Proof.
  intros Hs Hm Hinv r Hr.
  rewrite (quiet_persisted environ cid w w' Hs) in Hr.
  destruct (Hinv r Hr) as (Hu & ms & Hdoc & Hpre & Hwt).
  split; [exact Hu |]. exists ms.
  split; [exact Hdoc |]. split; [etrans; [exact Hpre | exact Hm] | exact Hwt].
Qed.

Lemma row_invariant_written t w w' :
  row_invariant environ cid w ->
  written environ cid created t (formatted_messages (chat_memory w')) w w' ->
  default_database (srv w') = default_database (srv w) ->
  whole_turns (chat_memory w') = true ->
  row_invariant environ cid w'.
Proof.
  intros Hinv Hw Hdef Hwt r Hr.
  destruct (written_persisted environ cid created t _ w w' Hw Hdef)
    as (r' & Hr' & Hdoc & Hu).
  rewrite Hr in Hr'. injection Hr' as <-. split.
  - rewrite Hu. destruct (persisted environ cid w) as [r0|] eqn:H0; cbn.
    + now destruct (Hinv r0 H0).
    + reflexivity.
  - exists (chat_memory w'). split; [exact Hdoc |]. split; [reflexivity | exact Hwt].
Qed.

(** A turn whose reply arrived keeps the message list made of whole turns
    and keeps the invariant of the row. *)
Lemma chat_turn_invariant t w c :
  llm t = Reply c ->
  whole_turns (chat_memory w) = true ->
  row_invariant environ cid w ->
  exists w',
    chat_turn environ cid created t w = (Ok tt, w') /\
    chat_memory w' = (chat_memory w ++ [HumanMessage (user_input t); AIMessage c])%list /\
    whole_turns (chat_memory w') = true /\
    row_invariant environ cid w'.
Proof.
  intros Hc Hwt Hinv.
  destruct (chat_turn_reply environ cid created t w c Hc)
    as (w' & Hrun & Hm & Hdef & _ & _ & Hw).
  exists w'. split; [exact Hrun |]. split; [exact Hm |].
  assert (Hwt' : whole_turns (chat_memory w') = true).
  { rewrite Hm, whole_turns_app by exact Hwt. reflexivity. }
  split; [exact Hwt' |].
  destruct Hw as [Hw | Hs].
  - apply (row_invariant_written t w w'); auto. now rewrite Hm.
  - apply (row_invariant_quiet w w'); auto. rewrite Hm. now apply prefix_app_r.
Qed.

Lemma chat_loop_invariant turns w :
  whole_turns (chat_memory w) = true ->
  row_invariant environ cid w ->
  row_invariant environ cid (chat_loop environ cid created turns w).2.
Proof.
  revert w. induction turns as [|t rest IH]; intros w Hwt Hinv.
  - rewrite chat_loop_nil. now apply (row_invariant_mono w).
  - destruct (is_sentinel (user_input t)) eqn:Hs.
    + rewrite (chat_loop_sentinel _ _ _ _ _ _ Hs). now apply (row_invariant_mono w).
    + rewrite (chat_loop_turn _ _ _ _ _ _ Hs).
      assert (Hinv' : row_invariant environ cid (prompted w))
        by now apply (row_invariant_mono w).
      destruct (llm t) as [c|e] eqn:Hc.
      * destruct (chat_turn_invariant t (prompted w) c Hc Hwt Hinv')
          as (w' & -> & _ & Hwt' & Hinv'').
        now apply IH.
      * rewrite (chat_turn_fails environ cid created t (prompted w) e Hc). cbn.
        apply (row_invariant_mono w); [reflexivity | now apply prefix_app_r | exact Hinv].
Qed.

(** The same for the whole script, started with no message and with no
    row under the conversation id of the run. *)
Lemma main_invariant boot1 boot2 turns w :
  chat_memory w = [] ->
  persisted environ cid w = None ->
  row_invariant environ cid (main environ cid created boot1 boot2 turns w).2.
Proof.
  intros Hm Hfresh.
  assert (Hstart : forall w0, bootstrapped w w0 ->
            whole_turns (chat_memory w0) = true /\ row_invariant environ cid w0).
  { intros w0 (Hm0 & Hd0 & Hr0). split; [now rewrite Hm0, Hm |].
    intros r Hr. unfold persisted in Hr, Hfresh.
    rewrite Hr0, (session_database_default _ _ _ Hd0), Hfresh in Hr.
    discriminate. }
  destruct (main_run environ cid created boot1 boot2 turns w)
    as [(w0 & Hb & _ & ->) | (w' & -> & Hb)].
  - destruct (Hstart w0 Hb). now apply chat_loop_invariant.
  - now destruct (Hstart w' Hb).
Qed.

End Invariant.

(** C3 (the persisted row holds whole turns).  In every run of the script
    that starts with no row under its conversation id, whatever the turns,
    the failures and the point where the run stands, the row under that id,
    once there, holds the serialization of a prefix of the message list
    that consists of whole turns (user message, then reply): each upsert
    replaces the whole document in one committed statement, and it is
    reached only after the reply of the turn was appended. *)
Theorem persisted_whole_turns environ cid created boot1 boot2 turns w r :
  chat_memory w = [] ->
  persisted environ cid w = None ->
  let w' := (main environ cid created boot1 boot2 turns w).2 in
  persisted environ cid w' = Some r ->
  exists ms,
    messages r = formatted_messages ms /\
    ms `prefix_of` chat_memory w' /\
    whole_turns ms = true.
Proof.
  intros Hm Hfresh w' Hr.
  now destruct (main_invariant environ cid created boot1 boot2 turns w Hm Hfresh r Hr).
Qed.

(** C10 (hard-coded user id).  In every run of the script that starts with
    no row under its conversation id, the row under that id carries
    [user_id = "abc"], whatever the environment, the lines typed and the
    replies. *)
Theorem persisted_user_id environ cid created boot1 boot2 turns w r :
  chat_memory w = [] ->
  persisted environ cid w = None ->
  persisted environ cid (main environ cid created boot1 boot2 turns w).2 = Some r ->
  user_id r = "abc".
Proof.
  intros Hm Hfresh Hr.
  now destruct (main_invariant environ cid created boot1 boot2 turns w Hm Hfresh r Hr).
Qed.

Lemma persisted_whole_turns_witness :
  exists ms,
    JArray [JObject [("role", JString "human"); ("content", JString "hello")];
            JObject [("role", JString "ai"); ("content", JString "hi there")]]
      = formatted_messages ms /\
    ms `prefix_of`
      chat_memory (main demo_environ "c0" 5 no_fault no_fault [hello_turn] demo_world).2 /\
    whole_turns ms = true.
Proof.
  apply (persisted_whole_turns demo_environ "c0" 5 no_fault no_fault [hello_turn]
           demo_world
           (Row 1 "c0" "abc" 5
              (JArray [JObject [("role", JString "human"); ("content", JString "hello")];
                       JObject [("role", JString "ai"); ("content", JString "hi there")]])
              10)).
  - reflexivity.
  - vm_compute. reflexivity.
  - vm_compute. reflexivity.
Defined.

Lemma persisted_user_id_witness :
  chat_memory demo_world = [] /\
  persisted demo_environ "c0" demo_world = None /\
  user_id (Row 1 "c0" "abc" 5
             (JArray [JObject [("role", JString "human"); ("content", JString "hello")];
                      JObject [("role", JString "ai"); ("content", JString "hi there")]])
             10) = "abc".
Proof.
  split; [reflexivity |]. split; [vm_compute; reflexivity |].
  apply (persisted_user_id demo_environ "c0" 5 no_fault no_fault [hello_turn]
           demo_world).
  - reflexivity.
  - vm_compute. reflexivity.
  - vm_compute. reflexivity.
Defined.

(** ** Roles of the serialized messages *)

Lemma formatted_roles ms :
  Forall (fun j => role_of j = Some "human" \/ role_of j = Some "ai")
         (items (formatted_messages ms)).
Proof.
  cbn. induction ms as [|m ms IH]; cbn; constructor; [| exact IH].
  destruct m; cbn; auto.
Qed.

(** C4 as the spec words it fails: after the turn "hello" / "hi there" the
    row is there, and its document is not the one with the roles "user" and
    "assistant". *)
Lemma roles_counterexample :
  exists r,
    persisted demo_environ "c0"
      (main demo_environ "c0" 5 no_fault no_fault [hello_turn] demo_world).2 = Some r /\
    messages r <>
      JArray [JObject [("role", JString "user"); ("content", JString "hello")];
              JObject [("role", JString "assistant"); ("content", JString "hi there")]] /\
    Exists (fun j => role_of j <> Some "user" /\ role_of j <> Some "assistant")
           (items (messages r)).
Proof.
  eexists. split; [vm_compute; reflexivity |]. split.
  - cbn. discriminate.
  - cbn. constructor. cbn. split; discriminate.
Qed.

(** C4, amended (roles of the persisted messages).  Every serialized
    message of the persisted document has the role "human" or "ai", the
    [type] of the LangChain message it comes from.  After a first turn in
    which the user sends "hello", the model replies "hi there" and the
    upsert goes through, the [messages] column of the row is
    [{role: "human", content: "hello"}, {role: "ai", content: "hi there"}]. *)
Theorem persisted_roles :
  (forall environ cid created boot1 boot2 turns w r,
     chat_memory w = [] ->
     persisted environ cid w = None ->
     persisted environ cid (main environ cid created boot1 boot2 turns w).2 = Some r ->
     Forall (fun j => role_of j = Some "human" \/ role_of j = Some "ai")
            (items (messages r)))
  /\ (forall environ cid created t w,
        chat_memory w = [] ->
        user_input t = "hello" ->
        llm t = Reply "hi there" ->
        persist_result environ cid created t w = Ok tt ->
        exists r,
          persisted environ cid (chat_turn environ cid created t w).2 = Some r /\
          messages r =
            JArray [JObject [("role", JString "human"); ("content", JString "hello")];
                    JObject [("role", JString "ai"); ("content", JString "hi there")]]).
Proof.
  split.
  - intros environ cid created boot1 boot2 turns w r Hm Hfresh Hr.
    destruct (main_invariant environ cid created boot1 boot2 turns w Hm Hfresh r Hr)
      as (_ & ms & -> & _).
    apply formatted_roles.
  - intros environ cid created t w Hm Hu Hc Hok.
    destruct (chat_turn_reply environ cid created t w _ Hc)
      as (w' & Hrun & _ & Hdef & _ & Hw & _).
    rewrite Hrun. cbn.
    destruct (written_persisted environ cid created t _ w w' (Hw Hok) Hdef)
      as (r & Hr & Hdoc & _).
    exists r. split; [exact Hr |]. rewrite Hdoc, Hm, Hu. reflexivity.
Qed.

Lemma persisted_roles_witness :
  Forall (fun j => role_of j = Some "human" \/ role_of j = Some "ai")
         (items
            (JArray [JObject [("role", JString "human"); ("content", JString "hello")];
                     JObject [("role", JString "ai"); ("content", JString "hi there")]]))
  /\ exists r,
       persisted demo_environ "c0"
         (chat_turn demo_environ "c0" 5 hello_turn ready_world).2 = Some r /\
       messages r =
         JArray [JObject [("role", JString "human"); ("content", JString "hello")];
                 JObject [("role", JString "ai"); ("content", JString "hi there")]].
Proof.
  split.
  - apply (proj1 persisted_roles demo_environ "c0" 5%Z no_fault no_fault [hello_turn]
             demo_world
             (Row 1 "c0" "abc" 5
                (JArray [JObject [("role", JString "human"); ("content", JString "hello")];
                         JObject [("role", JString "ai"); ("content", JString "hi there")]])
                10)).
    + reflexivity.
    + vm_compute. reflexivity.
    + vm_compute. reflexivity.
  - apply (proj2 persisted_roles demo_environ "c0" 5%Z hello_turn ready_world).
    + reflexivity.
    + reflexivity.
    + reflexivity.
    + vm_compute. reflexivity.
Defined.

(** ** Persistence across a failed upsert *)

(** The document of a message list, object by object. *)
Lemma formatted_messages_explicit ms :
  formatted_messages ms =
    JArray (map (fun m => match m with
                          | HumanMessage c =>
                              JObject [("role", JString "human"); ("content", JString c)]
                          | AIMessage c =>
                              JObject [("role", JString "ai"); ("content", JString c)]
                          end) ms).
Proof.
  unfold formatted_messages. f_equal. apply map_ext. now intros [c|c].
Qed.

(** C1 (self-healing persistence).  Take the loop at the start of turn N.
    When the upsert of turn N raises and the upsert of turn N+1 returns,
    the row of the run after turn N+1 holds the whole message list, object
    by object and in order: one object with role and content for every
    message that was there before turn N, then the user message and the
    reply of turn N, then the user message and the reply of turn N+1. *)
Theorem persist_self_heals environ cid created tN tN1 a b e w :
  is_sentinel (user_input tN) = false ->
  is_sentinel (user_input tN1) = false ->
  llm tN = Reply a ->
  llm tN1 = Reply b ->
  persist_result environ cid created tN (prompted w) = Raise e ->
  persist_result environ cid created tN1
    (prompted (chat_turn environ cid created tN (prompted w)).2) = Ok tt ->
  let w2 := (chat_loop environ cid created [tN; tN1] w).2 in
  chat_memory w2 =
    (chat_memory w ++ [HumanMessage (user_input tN); AIMessage a;
                       HumanMessage (user_input tN1); AIMessage b])%list /\
  exists r,
    persisted environ cid w2 = Some r /\
    messages r =
      JArray
        (map (fun m => match m with
                       | HumanMessage c =>
                           JObject [("role", JString "human"); ("content", JString c)]
                       | AIMessage c =>
                           JObject [("role", JString "ai"); ("content", JString c)]
                       end) (chat_memory w)
         ++ [JObject [("role", JString "human"); ("content", JString (user_input tN))];
             JObject [("role", JString "ai"); ("content", JString a)];
             JObject [("role", JString "human"); ("content", JString (user_input tN1))];
             JObject [("role", JString "ai"); ("content", JString b)]]).
Proof.
  intros HsN HsN1 Ha Hb HfailN HokN1.
  rewrite (chat_loop_turn _ _ _ _ _ _ HsN). cbn zeta.
  destruct (chat_turn_reply environ cid created tN (prompted w) a Ha)
    as (w1 & Hrun1 & Hm1 & Hdef1 & _ & _ & _).
  rewrite Hrun1 in *. cbn [snd] in HokN1.
  rewrite (chat_loop_turn _ _ _ _ _ _ HsN1).
  destruct (chat_turn_reply environ cid created tN1 (prompted w1) b Hb)
    as (w2 & Hrun2 & Hm2 & Hdef2 & _ & Hw2 & _).
  rewrite Hrun2, chat_loop_nil. cbn.
  assert (Hhist : chat_memory w2 =
            (chat_memory w ++ [HumanMessage (user_input tN); AIMessage a;
                               HumanMessage (user_input tN1); AIMessage b])%list).
  { rewrite Hm2. cbn. rewrite Hm1. cbn. now rewrite <- app_assoc. }
  split; [exact Hhist |].
  destruct (written_persisted environ cid created tN1 _ (prompted w1) w2
              (Hw2 HokN1) Hdef2) as (r & Hr & Hdoc & _).
  exists r. split.
  - rewrite <- Hr. now apply unwritten_persisted.
  - rewrite Hdoc. cbn [prompted chat_memory]. rewrite Hm1. cbn [prompted chat_memory].
    rewrite <- app_assoc. cbn [app].
    rewrite formatted_messages_explicit, map_app. reflexivity.
Qed.

Lemma persist_self_heals_witness :
  chat_memory (chat_loop demo_environ "c0" 5 [lost_turn; kept_turn] ready_world).2 =
    [HumanMessage "first"; AIMessage "one"; HumanMessage "second"; AIMessage "two"]
  /\ exists r,
       persisted demo_environ "c0"
         (chat_loop demo_environ "c0" 5 [lost_turn; kept_turn] ready_world).2 = Some r /\
       messages r =
         JArray [JObject [("role", JString "human"); ("content", JString "first")];
                 JObject [("role", JString "ai"); ("content", JString "one")];
                 JObject [("role", JString "human"); ("content", JString "second")];
                 JObject [("role", JString "ai"); ("content", JString "two")]].
Proof.
  apply (persist_self_heals demo_environ "c0" 5 lost_turn kept_turn "one" "two"
           (OperationalError "connection refused") ready_world).
  - reflexivity.
  - reflexivity.
  - reflexivity.
  - reflexivity.
  - vm_compute. reflexivity.
  - vm_compute. reflexivity.
Defined.

(** ** Counting messages *)

(** C8 as the spec words it fails: a single turn whose completion raises
    leaves one message in the store and no completed turn. *)
Lemma message_count_counterexample :
  length (chat_memory (chat_loop demo_environ "c0" 5 [failing_turn] ready_world).2) = 1
  /\ completed_turns [failing_turn] = 0
  /\ length (chat_memory (chat_loop demo_environ "c0" 5 [failing_turn] ready_world).2)
     <> 2 * completed_turns [failing_turn].
Proof. vm_compute. repeat split. discriminate. Qed.

(** C8, amended (message count).  Over any sequence of turns the loop adds
    two messages per completed turn and one per turn whose completion
    raised (the user message of that turn stays); nothing is removed.
    Started on an empty store, the store holds twice the number of
    completed turns plus the number of aborted turns. *)
Theorem message_count environ cid created turns w :
  length (chat_memory (chat_loop environ cid created turns w).2) =
    length (chat_memory w) + 2 * completed_turns turns + aborted_turns turns.
Proof.
  revert w. induction turns as [|t rest IH]; intros w.
  - rewrite chat_loop_nil. cbn. lia.
  - cbn [completed_turns aborted_turns].
    destruct (is_sentinel (user_input t)) eqn:Hs.
    + rewrite (chat_loop_sentinel _ _ _ _ _ _ Hs). cbn. lia.
    + rewrite (chat_loop_turn _ _ _ _ _ _ Hs).
      destruct (llm t) as [c|e] eqn:Hc.
      * destruct (chat_turn_reply environ cid created t (prompted w) c Hc)
          as (w' & -> & Hm & _).
        rewrite IH, Hm, length_app. cbn. lia.
      * rewrite (chat_turn_fails environ cid created t (prompted w) e Hc). cbn.
        rewrite length_app. cbn. lia.
Qed.

(** ** A completion that raises *)

(** The exception of [llm.invoke] leaves [graph.invoke] and the loop: the
    user message is in the store, nothing is printed, nothing is written,
    and the rest of the input is never read. *)
Lemma completion_failure_propagates environ cid created t rest w e :
  is_sentinel (user_input t) = false ->
  llm t = Fails e ->
  chat_loop environ cid created (t :: rest) w =
    (Raise e,
     World (srv w)
           (chat_memory w ++ [HumanMessage (user_input t)])
           (trace w ++ [Print Prompt;
                        LlmInvoke (chat_memory w ++ [HumanMessage (user_input t)])])).
Proof.
  intros Hs Hc. rewrite (chat_loop_turn _ _ _ _ _ _ Hs).
  rewrite (chat_turn_fails environ cid created t (prompted w) e Hc). cbn.
  now rewrite <- app_assoc.
Qed.

(** C2 (completion failure), evaluated: "hello" is answered, the completion
    of the second turn raises, a third line is waiting.  The exception ends
    the process with status 1: no diagnostic is printed after the call of
    the model, the third line is not read, and the store holds the first
    turn and the lone user message of the second. *)
Theorem completion_failure_ends_loop :
  let run := chat_loop demo_environ "c0" 5 [hello_turn; failing_turn; next_turn] ready_world in
  run.1 = Raise (RemoteError "unavailable")
  /\ exit_status run.1 = Some 1%Z
  /\ chat_memory run.2 =
       [HumanMessage "hello"; AIMessage "hi there"; HumanMessage "how are you"]
  /\ trace run.2 =
       [Print Prompt; LlmInvoke [HumanMessage "hello"]; Print (Assistant "hi there");
        PgConnect "chat"; Print Prompt;
        LlmInvoke [HumanMessage "hello"; AIMessage "hi there"; HumanMessage "how are you"]].
Proof. vm_compute. repeat split. Qed.

(** ** Bootstrap: fatal on failure, idempotent on success *)
Section BootstrapTwice.

Import DatabaseManager.

Variables (environ : gmap string string).

Lemma server_insert_id (s : server) n d :
  databases s !! n = Some d ->
  Server (<[n := d]> (databases s)) (default_database s) = s.
Proof. intros H. rewrite (insert_id _ _ _ H). now destruct s. Qed.

(** When [create_database_if_not_exists] returns, a database name was
    configured, and the administrative and the target database exist. *)
Lemma create_database_ok f self w w1 :
  create_database_if_not_exists environ f self w = (Ok tt, w1) ->
  Py.truthy (dbname self) = true /\
  default_database (srv w1) = default_database (srv w) /\
  is_Some (databases (srv w1) !! session_database (srv w) (admin_config environ self)) /\
  is_Some (databases (srv w1) !! default "" (dbname self)).
Proof.
  unfold create_database_if_not_exists, create_database_try, create_database,
    try_except, connect, close, read_database, external, put_database, print,
    emit, get, raise, sys_exit, bind, ret.
  cbn.
  destruct (Py.truthy (dbname self)); cbn; [| discriminate].
  destruct (f Connect); cbn; [discriminate |].
  destruct (databases (srv w) !! session_database (srv w) (admin_config environ self))
    as [da|] eqn:Ha; cbn; [| discriminate].
  destruct (f Select); cbn; [discriminate |].
  destruct (databases (srv w) !! default "" (dbname self)) eqn:Ht; cbn.
  - destruct (f Close); cbn; [discriminate |].
    intros [= <-]. cbn. rewrite Ha, Ht. eauto.
  - destruct (f Execute); cbn; [discriminate |].
    destruct (f Close); cbn; [discriminate |].
    intros [= <-]. cbn. repeat split; auto.
    + apply lookup_insert_is_Some'. right. rewrite Ha. eauto.
    + rewrite lookup_insert_eq. eauto.
Qed.

(** Run on a server where both exist, it leaves the server as it is,
    whichever call fails; with no failure it returns. *)
Lemma create_database_again f self w :
  Py.truthy (dbname self) = true ->
  is_Some (databases (srv w) !! session_database (srv w) (admin_config environ self)) ->
  is_Some (databases (srv w) !! default "" (dbname self)) ->
  srv (create_database_if_not_exists environ f self w).2 = srv w /\
  create_database_if_not_exists environ no_fault self w =
    (Ok tt,
     World (srv w) (chat_memory w)
           (trace w ++ [PgConnect (session_database (srv w) (admin_config environ self));
                        Print DatabaseAlreadyExists])).
Proof.
  intros Hname [da Ha] [dt Ht].
  unfold create_database_if_not_exists, create_database_try, create_database,
    try_except, connect, close, read_database, external, put_database, print,
    emit, get, raise, sys_exit, bind, ret, no_fault.
  cbn. rewrite Hname. cbn. rewrite Ha. cbn. rewrite Ht. cbn. split.
  - destruct (f Connect); cbn; [reflexivity |].
    rewrite Ha. cbn. destruct (f Select); cbn; [reflexivity |].
    rewrite Ht. cbn. destruct (f Close); reflexivity.
  - now rewrite <- app_assoc.
Qed.

Lemma create_chat_table_again f self w d :
  databases (srv w) !! session_database (srv w) self = Some d ->
  run_script create_table_sql d = inr d ->
  srv (create_chat_table f self w).2 = srv w /\
  (create_chat_table no_fault self w).1 = Ok tt.
Proof.
  intros Hd Hfix.
  assert (Hinst : installed d = d).
  { rewrite create_table_sql_run in Hfix. now injection Hfix. }
  split.
  - destruct (create_chat_table_cases f self w)
      as (r & w' & -> & _ & Hdef & [(_ & Hdb & _) | (d0 & Hd0 & Hdb & _)]); cbn.
    + now apply server_eq.
    + apply server_eq; [| exact Hdef].
      rewrite Hd in Hd0. injection Hd0 as <-.
      now rewrite Hdb, Hinst, (insert_id _ _ _ Hd).
  - destruct (create_chat_table_cases no_fault self w)
      as (r & w' & -> & _ & _ & [(_ & _ & Hf) | (d0 & _ & _ & Hr)]); cbn.
    + destruct Hf as [Hf | [Hf | [Hf | Hf]]];
        [now destruct Hf | congruence | now destruct Hf | now destruct Hf].
    + destruct Hr as [[-> _] | [_ Hf]]; [reflexivity | now destruct Hf].
Qed.

Lemma main_exit_database cid created boot1 boot2 turns w e w1 :
  create_database_try environ boot1 (DB_CONFIG environ) w = (Raise e, w1) ->
  main environ cid created boot1 boot2 turns w =
    (Exit 1%Z,
     World (srv w1) (chat_memory w1)
           (trace w1 ++ [Print (ErrorCreatingDatabase e); Print HintCreatedb])).
Proof.
  intros H.
  unfold main, bind at 1, create_database_if_not_exists, try_except.
  rewrite H. unfold print, emit, sys_exit, bind. cbn. now rewrite <- app_assoc.
Qed.

Lemma main_exit_table cid created boot1 boot2 turns w w1 e w2 :
  create_database_if_not_exists environ boot1 (DB_CONFIG environ) w = (Ok tt, w1) ->
  create_chat_table_try boot2 (DB_CONFIG environ) w1 = (Raise e, w2) ->
  main environ cid created boot1 boot2 turns w =
    (Exit 1%Z,
     World (srv w2) (chat_memory w2)
           (trace w2 ++ [Print (ErrorCreatingTable e); Print HintRunning])).
Proof.
  intros H1 H2.
  unfold main, bind at 1. rewrite H1.
  unfold bind at 1, create_chat_table, try_except.
  rewrite H2. unfold print, emit, sys_exit, bind. cbn. now rewrite <- app_assoc.
Qed.

Lemma missing_dbname f self w :
  Py.truthy (dbname self) = false ->
  create_database_try environ f self w =
    (Raise (ValueError "DB_NAME is not set in environment variables"), w).
Proof.
  intros H. unfold create_database_try, bind. rewrite H. reflexivity.
Qed.

End BootstrapTwice.

(** C9 (bootstrap).  Failure: when the [try] block of
    [create_database_if_not_exists] raises (a missing or empty DB_NAME is
    one such case), or that function returns and the [try] block of
    [create_chat_table] raises, the script prints the diagnostic and exits
    with status 1 in the world the failed block left: no banner, no prompt,
    no line read.  No exception leaves the bootstrap: the script exits with
    status 1 or enters the loop.  Success: run again on the server it
    returned on, each function leaves the server as it is whichever call
    fails, and returns when none does; and neither function ever changes a
    message or a row of any conversation. *)
Theorem bootstrap_fatal_idempotent environ cid created boot1 boot2 turns w :
  let cfg := DB_CONFIG environ in
  let create_db := DatabaseManager.create_database_if_not_exists environ in
  let create_tb := DatabaseManager.create_chat_table in
  (forall e w1,
     DatabaseManager.create_database_try environ boot1 cfg w = (Raise e, w1) ->
     main environ cid created boot1 boot2 turns w =
       (Exit 1%Z,
        World (srv w1) (chat_memory w1)
              (trace w1 ++ [Print (ErrorCreatingDatabase e); Print HintCreatedb])))
  /\ (Py.truthy (environ !! "DB_NAME") = false ->
      main environ cid created boot1 boot2 turns w =
        (Exit 1%Z,
         World (srv w) (chat_memory w)
               (trace w ++
                [Print (ErrorCreatingDatabase
                          (ValueError "DB_NAME is not set in environment variables"));
                 Print HintCreatedb])))
  /\ (forall w1 e w2,
        create_db boot1 cfg w = (Ok tt, w1) ->
        DatabaseManager.create_chat_table_try boot2 cfg w1 = (Raise e, w2) ->
        main environ cid created boot1 boot2 turns w =
          (Exit 1%Z,
           World (srv w2) (chat_memory w2)
                 (trace w2 ++ [Print (ErrorCreatingTable e); Print HintRunning])))
  /\ ((exists w', main environ cid created boot1 boot2 turns w = (Exit 1%Z, w') /\
                  bootstrapped w w')
      \/ (exists w0, bootstrapped w w0 /\
                     main environ cid created boot1 boot2 turns w =
                       chat_loop environ cid created turns w0))
  /\ (forall w1,
        create_db boot1 cfg w = (Ok tt, w1) ->
        (forall f, srv (create_db f cfg w1).2 = srv w1) /\
        (create_db no_fault cfg w1).1 = Ok tt)
  /\ (forall w1,
        create_tb boot2 cfg w = (Ok tt, w1) ->
        (forall f, srv (create_tb f cfg w1).2 = srv w1) /\
        (create_tb no_fault cfg w1).1 = Ok tt)
  /\ (forall f, bootstrapped w (create_db f cfg w).2)
  /\ (forall f, bootstrapped w (create_tb f cfg w).2).
Proof.
  intros cfg create_db create_tb. subst create_db create_tb. repeat apply conj.
  - intros e w1. apply main_exit_database.
  - intros Hname. apply main_exit_database. now apply missing_dbname.
  - intros w1 e w2. apply main_exit_table.
  - destruct (main_run environ cid created boot1 boot2 turns w)
      as [(w0 & Hb & _ & Hrun) | Hexit]; [right; eauto | left; exact Hexit].
  - intros w1 Hok.
    destruct (create_database_ok environ boot1 cfg w w1 Hok) as (Hn & Hdef & Ha & Ht).
    rewrite <- (session_database_default _ _ _ Hdef) in Ha.
    split.
    + intros f. now apply create_database_again.
    + now rewrite (proj2 (create_database_again environ boot1 cfg w1 Hn Ha Ht)).
  - intros w1 Hok.
    destruct (create_chat_table_run boot2 cfg w) as (r & w1' & Hrun & _ & Hb & Hs).
    rewrite Hok in Hrun. injection Hrun as <- <-.
    destruct (Hs eq_refl) as (d & Hd & _ & Hfix).
    destruct Hb as (_ & Hdef & _).
    rewrite <- (session_database_default _ _ _ Hdef) in Hd.
    split.
    + intros f. now apply (create_chat_table_again f cfg w1 d).
    + exact (proj2 (create_chat_table_again boot2 cfg w1 d Hd Hfix)).
  - intros f. destruct (create_database_run environ f cfg w) as (r & w' & -> & _ & Hb).
    exact Hb.
  - intros f. destruct (create_chat_table_run f cfg w) as (r & w' & -> & _ & Hb & _).
    exact Hb.
Qed.

Lemma bootstrap_fatal_idempotent_witness :
  main ∅ "c0" 5 no_fault no_fault [hello_turn] demo_world =
    (Exit 1%Z,
     World (srv demo_world) []
           [Print (ErrorCreatingDatabase
                     (ValueError "DB_NAME is not set in environment variables"));
            Print HintCreatedb])
  /\ (let w1 :=
        (DatabaseManager.create_chat_table no_fault (DB_CONFIG demo_environ)
           unprepared_world).2 in
      (forall f,
         srv (DatabaseManager.create_chat_table f (DB_CONFIG demo_environ) w1).2 = srv w1)
      /\ (DatabaseManager.create_chat_table no_fault (DB_CONFIG demo_environ) w1).1
         = Ok tt).
Proof.
  split.
  - apply (bootstrap_fatal_idempotent ∅ "c0" 5%Z no_fault no_fault [hello_turn]
             demo_world).
    reflexivity.
  - apply (bootstrap_fatal_idempotent demo_environ "c0" 5%Z no_fault no_fault []
             unprepared_world).
    vm_compute. reflexivity.
Defined.

(** * Further properties of the two scripts *)

(** ** The sentinel check, continued *)

(** X1 (the sentinel check sees neither case nor surrounding whitespace).
    Two lines that differ only in the case of their letters and in the
    whitespace put around them are both sentinels or both ordinary lines. *)
Theorem sentinel_robust ws1 ws2 s s' :
  all_space ws1 = true ->
  all_space ws2 = true ->
  Py.lower s = Py.lower s' ->
  is_sentinel (ws1 ++ s ++ ws2) = is_sentinel s'.
Proof.
  intros H1 H2 Hl. rewrite (sentinel_ignores_whitespace _ _ _ H1 H2).
  now apply sentinel_case_insensitive.
Qed.

Lemma sentinel_robust_witness :
  is_sentinel ("  " ++ "QuIt" ++ " ") = is_sentinel "quit".
Proof.
  apply (sentinel_robust "  " " " "QuIt" "quit"); reflexivity.
Defined.

Lemma strip_all_space s : all_space s = true -> Py.strip s = EmptyString.
Proof.
  intros H. unfold Py.strip.
  replace (Py.lstrip s) with EmptyString; [reflexivity |].
  induction s as [|c s IH]; [reflexivity |].
  cbn [all_space Py.lstrip] in *. apply andb_prop in H as [-> H]. auto.
Qed.

(** X2 (a blank line is a turn).  A line that is empty or made of
    whitespace only is not a sentinel: the loop stores it as typed and
    invokes the model on the history that ends with it. *)
Theorem blank_line_is_a_turn environ cid created t rest w :
  all_space (user_input t) = true ->
  is_sentinel (user_input t) = false /\
  In (chat_memory w ++ [HumanMessage (user_input t)])%list
     (invocations (trace (chat_loop environ cid created (t :: rest) w).2)).
Proof.
  intros Hb.
  assert (Hs : is_sentinel (user_input t) = false).
  { unfold is_sentinel. rewrite (strip_all_space _ Hb). reflexivity. }
  split; [exact Hs |].
  assert (Hin : forall tr k,
            In (chat_memory w ++ [HumanMessage (user_input t)])%list
               (invocations
                  ((tr ++ [LlmInvoke (chat_memory w ++ [HumanMessage (user_input t)])])
                   ++ k))).
  { intros tr k. rewrite <- app_assoc. induction tr as [|x tr IH]; cbn.
    - now left.
    - destruct x; cbn; auto. }
  rewrite (chat_loop_turn _ _ _ _ _ _ Hs).
  destruct (llm t) as [c|e] eqn:Hc.
  - destruct (chat_turn_reply environ cid created t (prompted w) c Hc)
      as (w' & -> & _ & _ & [k1 Htr] & _).
    destruct (chat_loop_extends environ cid created rest w') as [_ [k2 Et]].
    rewrite Et, Htr. cbn [prompted chat_memory trace]. rewrite <- app_assoc. apply Hin.
  - rewrite (chat_turn_fails environ cid created t (prompted w) e Hc). cbn.
    rewrite <- (app_nil_r (_ ++ [LlmInvoke _])). apply Hin.
Qed.

Lemma blank_line_is_a_turn_witness :
  is_sentinel "   " = false /\
  In [HumanMessage "   "]
     (invocations
        (trace (chat_loop demo_environ "c0" 5
                  [Turn "   " (Reply "?") no_fault 10] ready_world).2)).
Proof.
  apply (blank_line_is_a_turn demo_environ "c0" 5
           (Turn "   " (Reply "?") no_fault 10) [] ready_world).
  reflexivity.
Defined.

(** ** Failures of the store during the loop *)

(** X3 (no database failure ends the loop).  As long as the model replies,
    the loop ends only at a sentinel line: whatever database calls raise on
    whatever turns, the run stops with the farewell when a sentinel was
    typed and is waiting for input otherwise; no exception and no exit
    leave it. *)
Theorem database_failures_never_end_loop environ cid created turns w :
  Forall (fun t => exists c, llm t = Reply c) turns ->
  (chat_loop environ cid created turns w).1 =
    Ok (if exits turns then Terminated else AwaitingInput).
Proof.
  intros Hall. revert w. induction Hall as [|t rest [c Hc] _ IH]; intros w.
  - reflexivity.
  - unfold exits in *. cbn [existsb].
    destruct (is_sentinel (user_input t)) eqn:Hs.
    + now rewrite (chat_loop_sentinel _ _ _ _ _ _ Hs).
    + rewrite (chat_loop_turn _ _ _ _ _ _ Hs).
      destruct (chat_turn_reply environ cid created t (prompted w) c Hc)
        as (w' & -> & _).
      apply IH.
Qed.

Lemma database_failures_never_end_loop_witness :
  (chat_loop demo_environ "c0" 5 [lost_turn; kept_turn] ready_world).1 =
    Ok AwaitingInput.
Proof.
  apply (database_failures_never_end_loop demo_environ "c0" 5
           [lost_turn; kept_turn] ready_world).
  repeat constructor; eexists; reflexivity.
Defined.

(** The trace of a turn whose reply arrived, as the [try] block ends. *)
Lemma chat_turn_trace environ cid created t w c :
  llm t = Reply c ->
  let said :=
    (trace w ++ [LlmInvoke (chat_memory w ++ [HumanMessage (user_input t)]);
                 Print (Assistant c);
                 PgConnect (session_database (srv w) (DB_CONFIG environ))])%list in
  trace (chat_turn environ cid created t w).2 =
    match persist_result environ cid created t w with
    | Raise e => (said ++ [Print (ErrorSaving e)])%list
    | _ => said
    end.
Proof.
  intros Hc said. unfold chat_turn, persist_result, bind, get, try_except.
  rewrite (graph_invoke_reply _ _ _ Hc). cbn -[persist].
  match goal with |- context [persist _ _ _ _ ?doc ?wg] =>
    destruct (persist_run environ cid created t doc wg)
      as (r & w' & Hp & _ & _ & Htr & _)
  end.
  rewrite Hp. cbn in Htr. subst said.
  destruct r as [[]|e|c0]; cbn; rewrite Htr, <- !app_assoc; reflexivity.
Qed.

(** X4 (a failed upsert is reported, a successful one is silent).  On a
    turn whose reply arrived the loop goes on either way.  When the [try]
    block raises, the last thing printed in the turn is the diagnostic with
    that exception, after the reply and the connection attempt; when it
    returns, nothing is printed after the reply. *)
Theorem persist_failure_logged environ cid created t w c :
  llm t = Reply c ->
  let said :=
    (trace w ++ [LlmInvoke (chat_memory w ++ [HumanMessage (user_input t)]);
                 Print (Assistant c);
                 PgConnect (session_database (srv w) (DB_CONFIG environ))])%list in
  (chat_turn environ cid created t w).1 = Ok tt /\
  (forall e,
     persist_result environ cid created t w = Raise e ->
     trace (chat_turn environ cid created t w).2 = (said ++ [Print (ErrorSaving e)])%list) /\
  (persist_result environ cid created t w = Ok tt ->
   trace (chat_turn environ cid created t w).2 = said).
Proof.
  intros Hc said. split; [| split].
  - now destruct (chat_turn_reply environ cid created t w c Hc) as (w' & -> & _).
  - intros e He. rewrite (chat_turn_trace environ cid created t w c Hc), He.
    reflexivity.
  - intros Hok. rewrite (chat_turn_trace environ cid created t w c Hc), Hok.
    reflexivity.
Qed.

Lemma persist_failure_logged_witness :
  (chat_turn demo_environ "c0" 5 lost_turn ready_world).1 = Ok tt /\
  trace (chat_turn demo_environ "c0" 5 lost_turn ready_world).2 =
    [LlmInvoke [HumanMessage "first"]; Print (Assistant "one"); PgConnect "chat";
     Print (ErrorSaving (OperationalError "connection refused"))] /\
  trace (chat_turn demo_environ "c0" 5 kept_turn ready_world).2 =
    [LlmInvoke [HumanMessage "second"]; Print (Assistant "two"); PgConnect "chat"].
Proof.
  split; [| split].
  - apply (persist_failure_logged demo_environ "c0" 5 lost_turn ready_world "one").
    reflexivity.
  - apply (proj1 (proj2 (persist_failure_logged demo_environ "c0" 5%Z lost_turn
                            ready_world "one" eq_refl))
                 (OperationalError "connection refused")).
    vm_compute. reflexivity.
  - apply (proj2 (proj2 (persist_failure_logged demo_environ "c0" 5%Z kept_turn
                            ready_world "two" eq_refl))).
    vm_compute. reflexivity.
Defined.

(** Short of its commit, the [try] block changes at most the position of
    the sequence. *)
Lemma persist_atomic environ cid created t doc w e :
  pg t Close = None ->
  (persist environ cid created t doc w).1 = Raise e ->
  same_but_sequence (srv w) (srv (persist environ cid created t doc w).2).
Proof.
  intros Hclose.
  unfold persist, connect, execute, commit, close, read_database, external,
    put_database, emit, get, raise, sys_exit, bind, ret.
  cbn. rewrite Hclose.
  destruct (pg t Connect); cbn; [intros _; apply same_but_sequence_refl |].
  destruct (databases (srv w) !! session_database (srv w) (DB_CONFIG environ))
    as [d|] eqn:Hd; cbn; [| intros _; apply same_but_sequence_refl].
  destruct (pg t Execute); cbn; [intros _; apply same_but_sequence_refl |].
  rewrite Hd. cbn.
  destruct (insert_on_conflict cid USER_ID created doc (now t) d); cbn;
    [intros _; apply same_but_sequence_refl |].
  destruct (pg t Commit); cbn; [| discriminate].
  intros _. now apply same_but_sequence_draw.
Qed.

(** X7 (a failed upsert writes nothing).  When the [try] block of a turn
    raises and closing the connection is not what raised, every database of
    the server holds after the turn the rows and the schema it held before
    it: a failure to connect, to execute or to commit leaves no partial
    write.  Only the position of the sequence of [chat_history] may have
    moved, since a value drawn by a statement is not given back when its
    transaction is not committed. *)
Theorem failed_upsert_writes_nothing environ cid created t w c e :
  llm t = Reply c ->
  pg t Close = None ->
  persist_result environ cid created t w = Raise e ->
  default_database (srv (chat_turn environ cid created t w).2) =
    default_database (srv w) /\
  forall n,
    forget_sequence <$> databases (srv (chat_turn environ cid created t w).2) !! n =
    forget_sequence <$> databases (srv w) !! n.
Proof.
  intros Hc Hclose. unfold chat_turn, persist_result, bind, get, try_except.
  rewrite (graph_invoke_reply _ _ _ Hc). cbn -[persist].
  intros He.
  match goal with |- context [persist _ _ _ _ ?doc ?wg] =>
    pose proof (persist_atomic environ cid created t doc wg e Hclose He) as Hs;
    destruct (persist environ cid created t doc wg) as [r w'] eqn:Hp
  end.
  cbn in He, Hs. subst r. cbn. exact Hs.
Qed.

Lemma failed_upsert_writes_nothing_witness :
  default_database (srv (chat_turn demo_environ "c0" 5 unsaved_turn ready_world).2) =
    default_database (srv ready_world) /\
  forall n,
    forget_sequence <$>
      databases (srv (chat_turn demo_environ "c0" 5 unsaved_turn ready_world).2) !! n =
    forget_sequence <$> databases (srv ready_world) !! n.
Proof.
  apply (failed_upsert_writes_nothing demo_environ "c0" 5 unsaved_turn ready_world
           "one" (OperationalError "connection lost")).
  - reflexivity.
  - reflexivity.
  - vm_compute. reflexivity.
Defined.

(** The value drawn before a commit that fails is gone: the row that the
    next turn inserts gets the id after it. *)
Example failed_commit_skips_an_id :
  row_id <$>
    persisted demo_environ "c0"
      (chat_loop demo_environ "c0" 5 [unsaved_turn; kept_turn] ready_world).2
  = Some 2%N.
Proof. vm_compute. reflexivity. Qed.

(** ** The upsert, continued *)

Lemma find_none_conflicts cid l :
  find (conflicts cid) l = None -> ~ In cid (map conversation_id l).
Proof.
  induction l as [|r l IH]; cbn; [tauto |].
  unfold conflicts at 1. destruct (bool_decide_reflect (conversation_id r = cid)) as [E|N];
    [discriminate |].
  intros H [E|Hin]; [contradiction | now apply IH].
Qed.

(** X5 (the upsert of a new conversation).  When the table has no row
    under the conversation id and the statement goes through, it adds
    exactly one row, at the end: its id is the next value of the sequence,
    its [user_id], [created_at] and [messages] are the ones passed and its
    [updated_at] is the time of the statement.  Looking the id up finds
    that row, and the row of every other conversation is found as before.
    (A statement that is refused adds nothing.) *)
Theorem upsert_inserts cid uid created doc ts d d' t :
  chat_history d = Some t ->
  select_row cid d = None ->
  insert_on_conflict cid uid created doc ts d = inr d' ->
  let new := Row (N.succ (id_seq t)) cid uid created doc ts in
  chat_history d' = Some (Table (rows t ++ [new]) (N.succ (id_seq t))) /\
  select_row cid d' = Some new /\
  forall cid', cid' <> cid -> select_row cid' d' = select_row cid' d.
Proof.
  intros Ht Hnone Hi new.
  destruct (insert_on_conflict_row cid uid created doc ts d d' t Ht Hi)
    as (_ & _ & _ & Hsel).
  rewrite Hnone in Hsel. split; [| split].
  - destruct (insert_on_conflict_inv _ _ _ _ _ _ _ Hi)
      as (t0 & Ht0 & _ & _ & _ & _ & ->).
    rewrite Ht in Ht0. injection Ht0 as <-.
    unfold select_row in Hnone. rewrite Ht in Hnone. cbn in Hnone.
    cbn. now rewrite find_existsb, Hnone.
  - exact Hsel.
  - intros cid' Hne. exact (insert_on_conflict_other _ _ _ _ _ _ _ _ Hne Hi).
Qed.

Lemma upsert_inserts_witness :
  chat_history
    (Database (Some (Table [Row 7 "c1" "abc" 5 (JArray []) 6;
                            Row 8 "c2" "abc" 8 (JArray []) 9] 8)) ∅ true true) =
    Some (Table ([Row 7 "c1" "abc" 5 (JArray []) 6] ++ [Row 8 "c2" "abc" 8 (JArray []) 9]) 8) /\
  select_row "c2"
    (Database (Some (Table [Row 7 "c1" "abc" 5 (JArray []) 6;
                            Row 8 "c2" "abc" 8 (JArray []) 9] 8)) ∅ true true) =
    Some (Row 8 "c2" "abc" 8 (JArray []) 9) /\
  forall cid', cid' <> "c2" ->
    select_row cid'
      (Database (Some (Table [Row 7 "c1" "abc" 5 (JArray []) 6;
                              Row 8 "c2" "abc" 8 (JArray []) 9] 8)) ∅ true true) =
    select_row cid'
      (Database (Some (Table [Row 7 "c1" "abc" 5 (JArray []) 6] 7)) ∅ true true).
Proof.
  apply (upsert_inserts "c2" "abc" 8 (JArray []) 9
           (Database (Some (Table [Row 7 "c1" "abc" 5 (JArray []) 6] 7)) ∅ true true)
           (Database (Some (Table [Row 7 "c1" "abc" 5 (JArray []) 6;
                                   Row 8 "c2" "abc" 8 (JArray []) 9] 8)) ∅ true true)
           (Table [Row 7 "c1" "abc" 5 (JArray []) 6] 7)); reflexivity.
Defined.

Lemma do_update_keys d ts doc r :
  conversation_id (do_update d ts doc r) = conversation_id r /\
  row_id (do_update d ts doc r) = row_id r.
Proof.
  unfold do_update, before_update.
  now destruct (update_chat_history_updated_at d).
Qed.

Lemma map_update_keys {B} (key : row -> B) (p : row -> bool) (f : row -> row) l :
  (forall r, key (f r) = key r) ->
  map key (map (fun r => if p r then f r else r) l) = map key l.
Proof.
  intros Hk. rewrite map_map. apply map_ext. intros r.
  destruct (p r); [apply Hk | reflexivity].
Qed.

(** X6 (the upsert keeps the constraints of the table).  On a table whose
    conversation ids are pairwise distinct, whose ids are pairwise distinct
    and none of whose ids is beyond the sequence, a statement that goes
    through leaves a table with the same three properties: it never
    produces a second row for a conversation and never reuses an id.  (A
    statement that is refused leaves the table as it is.) *)
Theorem upsert_keeps_constraints cid uid created doc ts d d' t :
  chat_history d = Some t ->
  table_ok t ->
  insert_on_conflict cid uid created doc ts d = inr d' ->
  exists t',
    chat_history d' = Some t' /\
    table_ok t'.
Proof.
  intros Ht (Hcid & Hid & Hseq) Hi.
  destruct (insert_on_conflict_inv _ _ _ _ _ _ _ Hi) as (t0 & Ht0 & _ & _ & _ & _ & ->).
  rewrite Ht in Ht0. injection Ht0 as <-.
  eexists. split; [reflexivity |].
  unfold table_ok. cbn.
  assert (Hle : Forall (fun r => (row_id r <= N.succ (id_seq t))%N) (rows t)).
  { eapply Forall_impl; [exact Hseq |]. cbn. intros r Hr. lia. }
  rewrite find_existsb.
  destruct (find (conflicts cid) (rows t)) as [r0|] eqn:Hfind; cbn.
  - rewrite !map_update_keys by (intros r; apply do_update_keys).
    split; [exact Hcid |]. split; [exact Hid |].
    apply Forall_map. eapply Forall_impl; [exact Hle |]. cbn. intros r Hr.
    destruct (conflicts cid r); [| exact Hr].
    now rewrite (proj2 (do_update_keys d ts doc r)).
  - rewrite !map_app. cbn. split; [| split].
    + apply NoDup_app. split; [exact Hcid |]. split; [| apply NoDup_singleton].
      intros x Hx Hin. apply list_elem_of_singleton in Hin. subst x.
      apply (find_none_conflicts cid (rows t) Hfind). now apply list_elem_of_In.
    + apply NoDup_app. split; [exact Hid |]. split; [| apply NoDup_singleton].
      intros x Hx Hin. apply list_elem_of_singleton in Hin. subst x.
      apply list_elem_of_fmap in Hx as (r & Hr & Hin).
      rewrite Forall_forall in Hseq. specialize (Hseq r Hin). lia.
    + apply Forall_app. split; [exact Hle |]. constructor; [cbn; lia | constructor].
Qed.

Lemma upsert_keeps_constraints_witness :
  exists t',
    chat_history
      (Database (Some (Table [Row 7 "c1" "abc" 5 (JArray [JString "new"]) 20] 10))
                ∅ true true) = Some t' /\
    table_ok t'.
Proof.
  apply (upsert_keeps_constraints "c1" "abc" 5 (JArray [JString "new"]) 20
           (Database (Some (Table [Row 7 "c1" "abc" 5 (JArray []) 6] 9)) ∅ true true)
           (Database (Some (Table [Row 7 "c1" "abc" 5 (JArray [JString "new"]) 20] 10))
                     ∅ true true)
           (Table [Row 7 "c1" "abc" 5 (JArray []) 6] 9)).
  - reflexivity.
  - unfold table_ok. cbn. split; [| split].
    + apply NoDup_singleton.
    + apply NoDup_singleton.
    + constructor; [cbn; lia | constructor].
  - reflexivity.
Defined.

(** ** What a run leaves alone *)
Section Frame.

Variables (environ : gmap string string) (cid : string) (created : Z).

(** A property of servers that every committed upsert of the run keeps is
    kept by the loop. *)
Lemma chat_loop_server (R : server -> server -> Prop) :
  (forall s, R s s) ->
  (forall a b c, R a b -> R b c -> R a c) ->
  (forall s s', same_but_sequence s s' -> R s s') ->
  (forall t doc w w',
     written environ cid created t doc w w' ->
     default_database (srv w') = default_database (srv w) ->
     R (srv w) (srv w')) ->
  forall turns w, R (srv w) (srv (chat_loop environ cid created turns w).2).
Proof.
  intros Hrefl Htrans Hquiet Hstep turns.
  induction turns as [|t rest IH]; intros w.
  - rewrite chat_loop_nil. apply Hrefl.
  - destruct (is_sentinel (user_input t)) eqn:Hs.
    + rewrite (chat_loop_sentinel _ _ _ _ _ _ Hs). apply Hrefl.
    + rewrite (chat_loop_turn _ _ _ _ _ _ Hs).
      destruct (llm t) as [c|e] eqn:Hc.
      * destruct (chat_turn_reply environ cid created t (prompted w) c Hc)
          as (w' & -> & _ & Hdef & _ & _ & Hw).
        apply (Htrans _ (srv w')); [| apply IH].
        destruct Hw as [Hw | Hq]; [| now apply Hquiet].
        exact (Hstep t _ (prompted w) w' Hw Hdef).
      * rewrite (chat_turn_fails environ cid created t (prompted w) e Hc).
        apply Hrefl.
Qed.

Lemma written_other t doc w w' n c :
  written environ cid created t doc w w' ->
  c <> cid ->
  row_at n c (srv w') = row_at n c (srv w).
Proof.
  intros (d & d' & Hd & Hi & Hw) Hne. unfold row_at. rewrite Hw.
  destruct (decide (session_database (srv w) (DB_CONFIG environ) = n)) as [<-|Hn].
  - rewrite lookup_insert_eq, Hd. cbn.
    exact (insert_on_conflict_other _ _ _ _ _ _ _ _ Hne Hi).
  - now rewrite lookup_insert_ne.
Qed.

Lemma written_schema t doc w w' n :
  written environ cid created t doc w w' ->
  schema <$> databases (srv w') !! n = schema <$> databases (srv w) !! n.
Proof.
  intros (d & d' & Hd & Hi & Hw). rewrite Hw.
  destruct (decide (session_database (srv w) (DB_CONFIG environ) = n)) as [<-|Hn].
  - rewrite lookup_insert_eq, Hd. cbn. f_equal.
    destruct (insert_on_conflict_inv _ _ _ _ _ _ _ Hi) as (tb & Ht & _ & _ & _ & _ & ->).
    unfold schema. cbn. rewrite Ht. reflexivity.
  - now rewrite lookup_insert_ne.
Qed.

End Frame.

(** X8 (a run never touches another conversation).  Whatever the
    environment, the lines, the replies and the failures, every row stored
    under a conversation id other than the one of the run, in any database
    of the server, is after the run (bootstrap and loop) what it was
    before. *)
Theorem other_conversations_untouched environ cid created boot1 boot2 turns w n c :
  c <> cid ->
  row_at n c (srv (main environ cid created boot1 boot2 turns w).2) =
  row_at n c (srv w).
Proof.
  intros Hne.
  assert (Hloop : forall w0,
            row_at n c (srv (chat_loop environ cid created turns w0).2) =
            row_at n c (srv w0)).
  { intros w0.
    apply (chat_loop_server environ cid created
             (fun s s' => row_at n c s' = row_at n c s)).
    - reflexivity.
    - intros s1 s2 s3 H12 H23. now rewrite H23.
    - intros s1 s2 Hq. now apply same_but_sequence_row_at.
    - intros t doc w1 w2 Hw _. now apply (written_other environ cid created t doc). }
  destruct (main_run environ cid created boot1 boot2 turns w)
    as [(w0 & (_ & _ & Hb) & _ & ->) | (w' & -> & (_ & _ & Hb))].
  - now rewrite Hloop.
  - apply Hb.
Qed.

Lemma other_conversations_untouched_witness :
  row_at "chat" "older"
    (srv (main demo_environ "c0" 5 no_fault no_fault [hello_turn]
            (World (Server {[ "bob" := DatabaseManager.new_database;
                              "chat" := Database (Some (Table [Row 3 "older" "abc" 1
                                                                  (JArray []) 2] 3))
                                                 ∅ true true ]}
                           (fun _ => "bob")) [] [])).2)
  = Some (Row 3 "older" "abc" 1 (JArray []) 2).
Proof.
  rewrite (other_conversations_untouched demo_environ "c0" 5 no_fault no_fault
             [hello_turn] _ "chat" "older").
  - reflexivity.
  - discriminate.
Defined.

(** X9 (the loop issues no data definition).  The chat loop creates and
    drops nothing: in every database of the server the table is there after
    the loop exactly if it was there before, with the same indexes, trigger
    function and trigger, and no database appears or disappears. *)
Theorem chat_loop_keeps_schema environ cid created turns w n :
  schema <$> databases (srv (chat_loop environ cid created turns w).2) !! n =
  schema <$> databases (srv w) !! n.
Proof.
  apply (chat_loop_server environ cid created
           (fun s s' => schema <$> databases s' !! n = schema <$> databases s !! n)).
  - reflexivity.
  - intros s1 s2 s3 H12 H23. now rewrite H23.
  - intros s1 s2 Hq. now apply same_but_sequence_schema.
  - intros t doc w1 w2 Hw _. now apply (written_schema environ cid created t doc).
Qed.

(** ** The row of the run, continued *)
Section RowOfTheRun.

Variables (environ : gmap string string) (cid : string) (created : Z).

(** The row a committed upsert leaves, from the row that was there. *)
Lemma written_row t doc w w' :
  written environ cid created t doc w w' ->
  default_database (srv w') = default_database (srv w) ->
  exists d tb,
    databases (srv w) !! session_database (srv w) (DB_CONFIG environ) = Some d /\
    chat_history d = Some tb /\
    persisted environ cid w' =
      Some (match persisted environ cid w with
            | Some r0 => do_update d (now t) doc r0
            | None => Row (N.succ (id_seq tb)) cid USER_ID created doc (now t)
            end).
Proof.
  intros (d & d' & Hd & Hi & Hw) Hdef.
  destruct (insert_on_conflict_inv _ _ _ _ _ _ _ Hi) as (tb & Ht & _).
  exists d, tb. split; [exact Hd |]. split; [exact Ht |].
  destruct (insert_on_conflict_row cid USER_ID created doc (now t) d d' tb Ht Hi)
    as (_ & _ & _ & Hsel).
  unfold persisted, row_at.
  rewrite (session_database_default _ _ _ Hdef), Hw, lookup_insert_eq, Hd.
  cbn. exact Hsel.
Qed.

Lemma persisted_conflicts w r :
  persisted environ cid w = Some r -> conversation_id r = cid.
Proof.
  unfold persisted, row_at, select_row.
  destruct (databases (srv w) !! _) as [d|]; [| discriminate]. cbn.
  destruct (chat_history d) as [tb|]; [| discriminate]. cbn.
  intros H. apply find_some in H as [_ H].
  unfold conflicts in H. now apply bool_decide_eq_true in H.
Qed.

(** A property of rows that holds of the row the script inserts and that
    the update keeps, holds of the row of the run throughout the loop. *)
Lemma chat_loop_row (P : row -> Prop) :
  (forall id doc ts, P (Row id cid USER_ID created doc ts)) ->
  (forall d ts doc r, P r -> P (do_update d ts doc r)) ->
  forall turns w,
    (forall r, persisted environ cid w = Some r -> P r) ->
    forall r,
      persisted environ cid (chat_loop environ cid created turns w).2 = Some r -> P r.
Proof.
  intros Hnew Hupd turns. induction turns as [|t rest IH]; intros w Hw r.
  - rewrite chat_loop_nil. apply Hw.
  - destruct (is_sentinel (user_input t)) eqn:Hs.
    + rewrite (chat_loop_sentinel _ _ _ _ _ _ Hs). apply Hw.
    + rewrite (chat_loop_turn _ _ _ _ _ _ Hs).
      destruct (llm t) as [c|e] eqn:Hc.
      * destruct (chat_turn_reply environ cid created t (prompted w) c Hc)
          as (w' & -> & _ & Hdef & _ & _ & Hwr).
        apply IH. intros r' Hr'.
        destruct Hwr as [Hwr | Hsame].
        -- destruct (written_row t _ (prompted w) w' Hwr Hdef)
             as (d & tb & _ & _ & Hrow).
           rewrite Hrow in Hr'. injection Hr' as <-.
           change (persisted environ cid (prompted w)) with (persisted environ cid w).
           destruct (persisted environ cid w) as [r0|] eqn:H0; auto.
        -- rewrite (quiet_persisted environ cid (prompted w) w' Hsame) in Hr'.
           now apply Hw.
      * rewrite (chat_turn_fails environ cid created t (prompted w) e Hc).
        apply Hw.
Qed.

End RowOfTheRun.

(** X19 (the row keeps the identity of the run).  In every run that starts
    with no row under its conversation id, the row under that id carries
    the [created_at] taken once at module load, on every turn and whatever
    time the server has when it is rewritten, and its [conversation_id] is
    the one of the run. *)
Theorem persisted_identity environ cid created boot1 boot2 turns w r :
  persisted environ cid w = None ->
  persisted environ cid (main environ cid created boot1 boot2 turns w).2 = Some r ->
  conversation_id r = cid /\ created_at r = created.
Proof.
  intros Hfresh Hr. split; [exact (persisted_conflicts environ cid _ r Hr) |].
  assert (Hstart : forall w0 r0, bootstrapped w w0 ->
            persisted environ cid w0 = Some r0 -> created_at r0 = created).
  { intros w0 r0 (_ & Hd0 & Hr0) H0. unfold persisted in H0, Hfresh.
    rewrite Hr0, (session_database_default _ _ _ Hd0), Hfresh in H0. discriminate. }
  destruct (main_run environ cid created boot1 boot2 turns w)
    as [(w0 & Hb & _ & Hrun) | (w' & Hrun & Hb)]; rewrite Hrun in Hr.
  - revert r Hr.
    apply (chat_loop_row environ cid created (fun r => created_at r = created)).
    + reflexivity.
    + intros d ts doc r0 H0. unfold do_update, before_update.
      now destruct (update_chat_history_updated_at d).
    + intros r0. now apply Hstart.
  - now apply (Hstart w' r Hb).
Qed.

Lemma persisted_identity_witness :
  let r := Row 1 "c0" "abc" 5
             (formatted_messages
                [HumanMessage "hello"; AIMessage "hi there";
                 HumanMessage "second"; AIMessage "two"]) 20 in
  persisted demo_environ "c0"
    (main demo_environ "c0" 5 no_fault no_fault [hello_turn; kept_turn] demo_world).2
    = Some r /\
  conversation_id r = "c0" /\ created_at r = 5%Z.
Proof.
  intros r. split; [vm_compute; reflexivity |].
  apply (persisted_identity demo_environ "c0" 5 no_fault no_fault
           [hello_turn; kept_turn] demo_world).
  - vm_compute. reflexivity.
  - vm_compute. reflexivity.
Defined.

(** X20 (a successful upsert mirrors the store).  After any turn whose
    reply arrived and whose [try] block returned, on a database where the
    table and its trigger are installed, the row of the run holds the
    serialization of the entire message list as it is after the turn,
    stamped with the server time of that turn. *)
Theorem successful_upsert_mirrors_memory environ cid created t w c d :
  llm t = Reply c ->
  databases (srv w) !! session_database (srv w) (DB_CONFIG environ) = Some d ->
  schema_installed d = true ->
  persist_result environ cid created t w = Ok tt ->
  let w' := (chat_turn environ cid created t w).2 in
  exists r,
    persisted environ cid w' = Some r /\
    messages r = formatted_messages (chat_memory w') /\
    updated_at r = now t.
Proof.
  intros Hc Hd Hs Hok.
  destruct (chat_turn_reply environ cid created t w c Hc)
    as (w' & Hrun & Hm & Hdef & _ & Hw & _).
  rewrite Hrun. cbn.
  destruct (written_row environ cid created t _ w w' (Hw Hok) Hdef)
    as (d0 & tb & Hd0 & _ & Hrow).
  rewrite Hd in Hd0. injection Hd0 as <-.
  destruct (schema_installed_inv d Hs) as (_ & _ & Htrig).
  eexists. split; [exact Hrow |]. rewrite Hm.
  destruct (persisted environ cid w) as [r0|].
  - rewrite (do_update_installed _ _ _ _ Htrig). cbn. split; reflexivity.
  - cbn. split; reflexivity.
Qed.

Lemma successful_upsert_mirrors_memory_witness :
  exists r,
    persisted demo_environ "c0" (chat_turn demo_environ "c0" 5 hello_turn ready_world).2
      = Some r /\
    messages r =
      formatted_messages
        (chat_memory (chat_turn demo_environ "c0" 5 hello_turn ready_world).2) /\
    updated_at r = 10%Z.
Proof.
  apply (successful_upsert_mirrors_memory demo_environ "c0" 5 hello_turn ready_world
           "hi there" (Database (Some (Table [] 0)) installed_indexes true true)).
  - reflexivity.
  - vm_compute. reflexivity.
  - reflexivity.
  - vm_compute. reflexivity.
Defined.

(** ** Bootstrap, continued *)
Section BootstrapEffects.

Import DatabaseManager.

(** X10 (what [create_chat_table] installs).  When [create_chat_table]
    returns, only the database of the session has changed: its table
    [chat_history] exists, with the rows and the sequence it had if it was
    already there and empty otherwise; the three named indexes are present
    next to those that were, and a table created by this call brings the
    indexes of its primary key and of its unique constraint with it; the
    trigger function and the trigger are installed. *)
Theorem create_chat_table_installs f self w w' :
  create_chat_table f self w = (Ok tt, w') ->
  exists d d',
    databases (srv w) !! session_database (srv w) self = Some d /\
    databases (srv w') = <[session_database (srv w) self := d']> (databases (srv w)) /\
    chat_history d' = Some (default (Table [] 0) (chat_history d)) /\
    indexes d' =
      {["idx_chat_history_created_at"; "idx_chat_history_user_id";
        "idx_chat_history_conversation_id"]}
      ∪ match chat_history d with
        | Some _ => indexes d
        | None =>
            {["chat_history_pkey"; "chat_history_conversation_id_key"]} ∪ indexes d
        end /\
    update_updated_at_column d' = true /\
    update_chat_history_updated_at d' = true.
Proof.
  intros Hrun.
  destruct (create_chat_table_cases f self w)
    as (r & w0 & Hrun0 & _ & _ & [(Hr & _) | (d & Hd & Hdb & _)]);
    rewrite Hrun in Hrun0; injection Hrun0 as <- <-; [discriminate |].
  exists d, (installed d). split; [exact Hd |]. split; [exact Hdb |].
  unfold installed. cbn. repeat split.
  apply set_eq. intros x. rewrite !elem_of_union. tauto.
Qed.

Lemma create_chat_table_installs_witness :
  exists d d',
    databases (srv unprepared_world) !!
      session_database (srv unprepared_world) (DB_CONFIG demo_environ) = Some d /\
    databases (srv (create_chat_table no_fault (DB_CONFIG demo_environ)
                      unprepared_world).2) =
      <[session_database (srv unprepared_world) (DB_CONFIG demo_environ) := d']>
        (databases (srv unprepared_world)) /\
    chat_history d' = Some (default (Table [] 0) (chat_history d)) /\
    indexes d' =
      {["idx_chat_history_created_at"; "idx_chat_history_user_id";
        "idx_chat_history_conversation_id"]}
      ∪ match chat_history d with
        | Some _ => indexes d
        | None =>
            {["chat_history_pkey"; "chat_history_conversation_id_key"]} ∪ indexes d
        end /\
    update_updated_at_column d' = true /\
    update_chat_history_updated_at d' = true.
Proof.
  apply (create_chat_table_installs no_fault (DB_CONFIG demo_environ)
           unprepared_world).
  vm_compute. reflexivity.
Defined.

(** X11 (what [create_database_if_not_exists] ensures).  When it returns,
    a database name was configured and the target database exists: a
    target that was already there is left as it was, with everything in
    it; a missing one is created empty; no other database is touched. *)
Theorem create_database_ensures environ f self w w' :
  create_database_if_not_exists environ f self w = (Ok tt, w') ->
  Py.truthy (dbname self) = true /\
  databases (srv w') =
    match databases (srv w) !! default "" (dbname self) with
    | Some _ => databases (srv w)
    | None => <[default "" (dbname self) := new_database]> (databases (srv w))
    end.
Proof.
  unfold create_database_if_not_exists, create_database_try, create_database,
    try_except, connect, close, read_database, external, put_database, print,
    emit, get, raise, sys_exit, bind, ret.
  cbn.
  destruct (Py.truthy (dbname self)); cbn; [| discriminate].
  destruct (f Connect); cbn; [discriminate |].
  destruct (databases (srv w) !! session_database (srv w) (admin_config environ self))
    as [da|] eqn:Ha; cbn; [| discriminate].
  destruct (f Select); cbn; [discriminate |].
  destruct (databases (srv w) !! default "" (dbname self)) eqn:Ht; cbn.
  - destruct (f Close); cbn; [discriminate |]. now intros [= <-].
  - destruct (f Execute); cbn; [discriminate |].
    destruct (f Close); cbn; [discriminate |]. now intros [= <-].
Qed.

Lemma create_database_ensures_witness :
  Py.truthy (dbname (DB_CONFIG demo_environ)) = true /\
  databases (srv (create_database_if_not_exists demo_environ no_fault
                    (DB_CONFIG demo_environ) demo_world).2) =
    match databases (srv demo_world) !! default "" (dbname (DB_CONFIG demo_environ)) with
    | Some _ => databases (srv demo_world)
    | None =>
        <[default "" (dbname (DB_CONFIG demo_environ)) := new_database]>
          (databases (srv demo_world))
    end.
Proof.
  apply (create_database_ensures demo_environ no_fault (DB_CONFIG demo_environ)
           demo_world).
  vm_compute. reflexivity.
Defined.

(** X12 (the administrative database has to exist).  The existence check
    runs on a session attached to the database named by DB_USER
    ("postgres" when DB_USER is not set).  When the server has no database
    of that name, [create_database_if_not_exists] exits with status 1 and
    leaves the server as it is, even if the target database exists and no
    call fails otherwise. *)
Theorem admin_database_required environ f self w :
  databases (srv w) !! session_database (srv w) (admin_config environ self) = None ->
  (create_database_if_not_exists environ f self w).1 = Exit 1%Z /\
  srv (create_database_if_not_exists environ f self w).2 = srv w.
Proof.
  intros Ha.
  unfold create_database_if_not_exists, create_database_try, create_database,
    try_except, connect, close, read_database, external, put_database, print,
    emit, get, raise, sys_exit, bind, ret.
  cbn.
  destruct (Py.truthy (dbname self)); cbn; [| split; reflexivity].
  destruct (f Connect); cbn; [split; reflexivity |].
  rewrite Ha. cbn. split; reflexivity.
Qed.

Lemma admin_database_required_witness :
  (create_database_if_not_exists demo_environ no_fault (DB_CONFIG demo_environ)
     ready_world).1 = Exit 1%Z /\
  srv (create_database_if_not_exists demo_environ no_fault (DB_CONFIG demo_environ)
         ready_world).2 = srv ready_world.
Proof.
  apply (admin_database_required demo_environ no_fault (DB_CONFIG demo_environ)
           ready_world).
  vm_compute. reflexivity.
Defined.

(** X13 (the schema script is all or nothing).  When [create_chat_table]
    does not return and closing the connection is not what raised, the
    server is what it was: a failure to connect, to execute the script or
    to commit leaves no table, index, function or trigger behind. *)
Theorem create_chat_table_atomic f self w :
  f Close = None ->
  (create_chat_table f self w).1 <> Ok tt ->
  (create_chat_table f self w).1 = Exit 1%Z /\
  srv (create_chat_table f self w).2 = srv w.
Proof.
  intros Hclose.
  destruct (create_chat_table_cases f self w)
    as (r & w' & -> & _ & Hdef & [(-> & Hdb & _) | (d & _ & _ & Hr)]); cbn.
  - intros _. split; [reflexivity | now apply server_eq].
  - destruct Hr as [[-> _] | [_ Hf]]; [intros H; now destruct H | contradiction].
Qed.

Lemma create_chat_table_atomic_witness :
  (create_chat_table
     (fun c => match c with
               | Commit => Some (OperationalError "connection lost")
               | _ => None
               end)
     (DB_CONFIG demo_environ) unprepared_world).1 = Exit 1%Z /\
  srv (create_chat_table
         (fun c => match c with
                   | Commit => Some (OperationalError "connection lost")
                   | _ => None
                   end)
         (DB_CONFIG demo_environ) unprepared_world).2 = srv unprepared_world.
Proof.
  apply (create_chat_table_atomic _ (DB_CONFIG demo_environ) unprepared_world).
  - reflexivity.
  - vm_compute. discriminate.
Defined.

End BootstrapEffects.

(** ** The order of a run *)
Section Order.

Variables (environ : gmap string string) (cid : string) (created : Z).

(** X16 (nothing is read after the end).  Once a run has ended, by a
    sentinel line or by an exception, the lines that follow make no
    difference: they are not read, nothing is sent to the model and
    nothing is written for them. *)
Theorem nothing_read_after_the_end a b w :
  (chat_loop environ cid created a w).1 <> Ok AwaitingInput ->
  chat_loop environ cid created (a ++ b) w = chat_loop environ cid created a w.
Proof.
  revert w. induction a as [|t a IH]; intros w Hend.
  - now destruct Hend.
  - rewrite <- app_comm_cons.
    destruct (is_sentinel (user_input t)) eqn:Hs.
    + now rewrite !(chat_loop_sentinel _ _ _ _ _ _ Hs).
    + rewrite (chat_loop_turn _ _ _ _ _ _ Hs) in Hend.
      rewrite !(chat_loop_turn _ _ _ _ _ _ Hs).
      destruct (chat_turn environ cid created t (prompted w)) as [[[]|e|c] w1];
        [now apply IH | reflexivity | reflexivity].
Qed.

(** X17 (turns compose).  A run that is waiting for input after the lines
    [a] continues on the lines [b] exactly as the run on [a] followed by
    [b]: the loop carries nothing from one turn to the next but the message
    list, the server and the terminal. *)
Theorem turns_compose a b w w1 :
  chat_loop environ cid created a w = (Ok AwaitingInput, w1) ->
  exists w0,
    w1 = prompted w0 /\
    chat_loop environ cid created (a ++ b) w = chat_loop environ cid created b w0.
Proof.
  revert w. induction a as [|t a IH]; intros w Hrun.
  - rewrite chat_loop_nil in Hrun. injection Hrun as <-. now exists w.
  - rewrite <- app_comm_cons.
    destruct (is_sentinel (user_input t)) eqn:Hs.
    + rewrite (chat_loop_sentinel _ _ _ _ _ _ Hs) in Hrun. discriminate.
    + rewrite (chat_loop_turn _ _ _ _ _ _ Hs) in Hrun.
      rewrite (chat_loop_turn _ _ _ _ _ _ Hs).
      destruct (chat_turn environ cid created t (prompted w)) as [[[]|e|c] w2];
        [now apply IH | discriminate | discriminate].
Qed.

End Order.

Lemma nothing_read_after_the_end_witness :
  chat_loop demo_environ "c0" 5 ([hello_turn; failing_turn] ++ [next_turn]) ready_world =
  chat_loop demo_environ "c0" 5 [hello_turn; failing_turn] ready_world.
Proof.
  apply (nothing_read_after_the_end demo_environ "c0" 5 [hello_turn; failing_turn]
           [next_turn] ready_world).
  vm_compute. discriminate.
Defined.

Lemma turns_compose_witness :
  exists w0,
    (chat_loop demo_environ "c0" 5 [lost_turn] ready_world).2 = prompted w0 /\
    chat_loop demo_environ "c0" 5 ([lost_turn] ++ [kept_turn]) ready_world =
    chat_loop demo_environ "c0" 5 [kept_turn] w0.
Proof.
  apply (turns_compose demo_environ "c0" 5 [lost_turn] [kept_turn] ready_world).
  vm_compute. reflexivity.
Defined.

(** ** What the model and the store are asked, turn by turn *)
Section Asked.

Variables (environ : gmap string string) (cid : string) (created : Z).

Lemma invocations_app k1 k2 :
  invocations (k1 ++ k2) = (invocations k1 ++ invocations k2)%list.
Proof.
  induction k1 as [|x k1 IH]; [reflexivity |].
  destruct x; cbn; now rewrite IH.
Qed.

Lemma connections_app k1 k2 :
  connections (k1 ++ k2) = connections k1 + connections k2.
Proof.
  induction k1 as [|x k1 IH]; [reflexivity |].
  destruct x; cbn; now rewrite IH.
Qed.

Lemma appended_app w w' k : trace w' = (trace w ++ k)%list -> appended w w' = k.
Proof. intros H. unfold appended. rewrite H. apply drop_app_length. Qed.

(** What one turn whose reply arrived appends to the trace. *)
Lemma chat_turn_appended t w c :
  llm t = Reply c ->
  exists k,
    trace (chat_turn environ cid created t w).2 =
      (trace w ++
       LlmInvoke (chat_memory w ++ [HumanMessage (user_input t)])
       :: Print (Assistant c)
       :: PgConnect (session_database (srv w) (DB_CONFIG environ)) :: k)%list /\
    invocations k = [] /\ connections k = 0.
Proof.
  intros Hc. rewrite (chat_turn_trace environ cid created t w c Hc). cbn zeta.
  destruct (persist_result environ cid created t w) as [[]|e|c0].
  - exists []. repeat split.
  - exists [Print (ErrorSaving e)]. now rewrite <- !app_assoc.
  - exists []. repeat split.
Qed.

(** What a run of the loop appends, with the two counts and the shape of
    the histories the model was invoked on. *)
Lemma chat_loop_appended turns w :
  exists k,
    trace (chat_loop environ cid created turns w).2 = (trace w ++ k)%list /\
    connections k = completed_turns turns /\
    length (invocations k) = completed_turns turns + aborted_turns turns /\
    (whole_turns (chat_memory w) = true ->
     Forall (fun h => exists p u, h = (p ++ [HumanMessage u])%list /\ whole_turns p = true)
            (invocations k)).
Proof.
  revert w. induction turns as [|t rest IH]; intros w.
  - rewrite chat_loop_nil. exists [Print Prompt]. cbn.
    split; [reflexivity | split; [reflexivity | split; [reflexivity |]]].
    constructor.
  - cbn [completed_turns aborted_turns].
    destruct (is_sentinel (user_input t)) eqn:Hs.
    + rewrite (chat_loop_sentinel _ _ _ _ _ _ Hs).
      exists [Print Prompt; Print Goodbye]. cbn.
      split; [reflexivity | split; [reflexivity | split; [reflexivity |]]].
      constructor.
    + rewrite (chat_loop_turn _ _ _ _ _ _ Hs).
      destruct (llm t) as [c|e] eqn:Hc.
      * destruct (chat_turn_appended t (prompted w) c Hc) as (k1 & Htr & Hi1 & Hc1).
        destruct (chat_turn_reply environ cid created t (prompted w) c Hc)
          as (w' & Hrun & Hm & _).
        rewrite Hrun in *. cbn [snd prompted trace chat_memory srv] in Htr.
        destruct (IH w') as (k2 & Htr2 & Hc2 & Hi2 & Hwf2).
        eexists. split; [rewrite Htr2, Htr, <- !app_assoc; reflexivity |].
        cbn. rewrite invocations_app, connections_app, Hi1, Hc1. cbn.
        split; [lia | split; [lia |]].
        intros Hwt. constructor.
        -- exists (chat_memory w), (user_input t). now split.
        -- apply Hwf2. rewrite Hm. cbn [prompted chat_memory].
           now rewrite whole_turns_app.
      * rewrite (chat_turn_fails environ cid created t (prompted w) e Hc). cbn.
        eexists. split; [rewrite <- app_assoc; reflexivity |].
        cbn. split; [reflexivity | split; [reflexivity |]].
        intros Hwt. constructor; [| constructor].
        exists (chat_memory w), (user_input t). now split.
Qed.

(** X14 (the model always sees whole turns and then the new line).  In a
    run started on a message list made of whole turns, every history the
    model is invoked on consists of whole turns (user message, then reply)
    followed by one user message: it is never empty and never ends with a
    reply. *)
Theorem model_sees_whole_history turns w :
  whole_turns (chat_memory w) = true ->
  Forall (fun h => exists p u, h = (p ++ [HumanMessage u])%list /\ whole_turns p = true)
         (invocations (appended w (chat_loop environ cid created turns w).2)).
Proof.
  intros Hwt. destruct (chat_loop_appended turns w) as (k & Htr & _ & _ & Hwf).
  rewrite (appended_app _ _ _ Htr). now apply Hwf.
Qed.

(** X15 (one call of the model per turn, one upsert per reply).  Over any
    run of the loop, the number of connections opened to the database is
    the number of turns whose reply arrived, and the number of invocations
    of the model is that number plus the number of turns whose completion
    raised: no turn is persisted twice, no reply goes without an attempt to
    persist it, and a sentinel line costs neither. *)
Theorem one_upsert_per_reply turns w :
  connections (appended w (chat_loop environ cid created turns w).2) =
    completed_turns turns /\
  length (invocations (appended w (chat_loop environ cid created turns w).2)) =
    completed_turns turns + aborted_turns turns.
Proof.
  destruct (chat_loop_appended turns w) as (k & Htr & Hc & Hi & _).
  rewrite (appended_app _ _ _ Htr). now split.
Qed.

End Asked.

Lemma model_sees_whole_history_witness :
  Forall (fun h => exists p u, h = (p ++ [HumanMessage u])%list /\ whole_turns p = true)
         (invocations
            (appended ready_world
               (chat_loop demo_environ "c0" 5 [hello_turn; failing_turn] ready_world).2)).
Proof.
  apply (model_sees_whole_history demo_environ "c0" 5 [hello_turn; failing_turn]
           ready_world).
  reflexivity.
Defined.

(** ** The serialized document *)

Lemma message_of_type_content m m' :
  msg_type m = msg_type m' -> msg_content m = msg_content m' -> m = m'.
Proof. destruct m, m'; cbn; intros Ht Hc; try discriminate; congruence. Qed.

(** X18 (the document determines the history).  Two message lists are
    serialized to the same document only if they are the same list: the
    array has one object per message, in order, and the role and content of
    an object tell the message they come from. *)
Theorem formatted_messages_faithful ms ms' :
  formatted_messages ms = formatted_messages ms' ->
  ms = ms' /\ length (items (formatted_messages ms)) = length ms.
Proof.
  intros H. split; [| cbn; apply length_map].
  unfold formatted_messages in H. injection H as H.
  revert ms' H. induction ms as [|m ms IH]; intros [|m' ms'] H; try discriminate.
  - reflexivity.
  - cbn [map] in H. injection H as Hty Hco Hrest.
    f_equal; [now apply message_of_type_content | now apply IH].
Qed.

Lemma formatted_messages_faithful_witness :
  [HumanMessage "hello"; AIMessage "hi there"] =
  [HumanMessage "hello"; AIMessage ("hi" ++ " there")] /\
  length (items (formatted_messages [HumanMessage "hello"; AIMessage "hi there"])) = 2.
Proof.
  apply (formatted_messages_faithful
           [HumanMessage "hello"; AIMessage "hi there"]
           [HumanMessage "hello"; AIMessage ("hi" ++ " there")]).
  reflexivity.
Defined.
